(** * Mini_Cloud: the file-catalog service

    A shallow embedding of [Project/file_storage.py] (class
    [FileStorageManager]) and [Project/firebase_config.py]
    ([initialize_firebase]), with the properties of the catalog
    contract proved about it.

    The two Firebase back ends are external collaborators.  They are
    modelled as explicit state (a bucket of blobs, a collection of
    documents) together with a log of the calls made on them; which
    calls fail, what the wall clock reads and which document id the
    store hands out are inputs of each operation ([env]). *)

From Stdlib Require Import ZArith Lia List Ascii String Permutation Sorted.
From stdpp Require Import base gmap strings list sorting.

Local Open Scope string_scope.
Local Open Scope Z_scope.
Local Open Scope list_scope.

(** ** Python helpers used by the service *)

Module Py.

(** [str(n)] for a non-negative integer: its decimal digits. *)
Definition digit (d : Z) : ascii := ascii_of_N (48 + Z.to_N d).

Fixpoint digits (fuel : nat) (n : Z) (acc : string) : string :=
  match fuel with
  | O => acc
  | S k =>
      let acc' := String (digit (n mod 10)) acc in
      if n <? 10 then acc' else digits k (n / 10) acc'
  end.

Definition str (n : Z) : string := digits (S (Z.to_nat (Z.log2 n))) n "".

(** [s.zfill(width)]: left padding with zeros, as the [%m], [%d], [%H],
    [%M] and [%S] directives do to 2 places and [%Y] to 4. *)
Definition zfill (width : nat) (s : string) : string :=
  string_of_list_ascii (repeat "0"%char (width - String.length s)) +:+ s.

(** [s.rfind(c)]: index of the last occurrence of the character, or -1. *)
Fixpoint rfind_from (i : Z) (c : ascii) (p : string) : Z :=
  match p with
  | EmptyString => -1
  | String a rest =>
      let r := rfind_from (i + 1) c rest in
      if 0 <=? r then r else if Ascii.eqb a c then i else -1
  end.

Definition rfind (c : ascii) (p : string) : Z := rfind_from 0 c p.

(** The slice [p[i:]]. *)
Definition slice_from (i : Z) (p : string) : string :=
  substring (Z.to_nat i) (String.length p - Z.to_nat i) p.

(** The slice [p[:i]]. *)
Definition slice_to (i : Z) (p : string) : string :=
  substring 0 (Z.to_nat i) p.

(** The loop of [genericpath._splitext] that skips leading dots: it
    looks at [p[filenameIndex]], ..., [p[dotIndex-1]] ([n] positions
    are left) and answers whether one of them is not a dot. *)
Fixpoint has_non_dot (p : string) (filenameIndex : nat) (n : nat) : bool :=
  match n with
  | O => false
  | S k =>
      match String.get filenameIndex p with
      | Some c => if Ascii.eqb c "." then has_non_dot p (S filenameIndex) k else true
      | None => true
      end
  end.

(** [os.path.splitext(p)] of [posixpath]: separator [/], no alternative
    separator, extension separator [.]. *)
Definition splitext (p : string) : string * string :=
  let sepIndex := rfind "/" p in
  let dotIndex := rfind "." p in
  if (sepIndex <? dotIndex)
     && has_non_dot p (Z.to_nat (sepIndex + 1))
                      (Z.to_nat (dotIndex - (sepIndex + 1)))
  then (slice_to dotIndex p, slice_from dotIndex p)
  else (p, "").

(** Nearest integer to [a / b] for [0 < b], ties to the even one. *)
Definition round_half_even (a b : Z) : Z :=
  let q := a / b in
  let r := a mod b in
  if 2 * r <? b then q
  else if b <? 2 * r then q + 1
  else if Z.even q then q else q + 1.

(** [round(n / (1024 * 1024), 2)] for an integer [n] with |n| < 2^53.
    A float with two decimal places is represented by its number of
    hundredths: in that range the quotient [n / 2^20] is exact in
    binary64 and [round(_, 2)] rounds the exact value correctly, ties
    to even, the float returned being the one nearest to
    [hundredths / 100].  From 2^53 on the code rounds the binary64
    quotient, which is no longer the exact one, and this definition
    does not follow it: the theorems that read the figure of a total
    or of a size that is not bounded otherwise carry the bound. *)
Definition round_mb (n : Z) : Z := round_half_even (100 * n) (1024 * 1024).

(** A naive [datetime], compared field by field as Python does. *)
Record datetime := {
  year : Z; month : Z; day : Z;
  hour : Z; minute : Z; second : Z; microsecond : Z
}.

Definition fields (d : datetime) : list Z :=
  [year d; month d; day d; hour d; minute d; second d; microsecond d].

(** [d.strftime('%Y%m%d_%H%M%S')]. *)
Definition strftime (d : datetime) : string :=
  zfill 4 (str (year d)) +:+ zfill 2 (str (month d)) +:+ zfill 2 (str (day d))
  +:+ "_" +:+
  zfill 2 (str (hour d)) +:+ zfill 2 (str (minute d)) +:+ zfill 2 (str (second d)).

End Py.

(** ** Data model *)

(** The values a catalog document holds: what [upload_file] writes into
    [metadata] ([None] for a missing content type, strings, the integer
    size, the rounded size in megabytes, the upload time). *)
Inductive value :=
| VNone
| VStr (s : string)
| VInt (n : Z)
| VFloat2 (hundredths : Z)
| VTime (t : Py.datetime).

Global Instance value_eq_dec : EqDecision value.
Proof. unfold EqDecision, Decision. repeat decide equality; apply Z.eq_dec. Defined.

(** A document is a Python [dict] with string keys. *)
Abbreviation document := (gmap string value).

(** Streamlit's [UploadedFile], as far as [upload_file] reads it: the
    attributes [name], [type], [size] and the method [getvalue()]. *)
Module UploadedFile.
Record t := {
  name : string;
  type : option string;
  size : Z;
  getvalue : list Byte.byte
}.
End UploadedFile.

(** An object of the storage bucket. *)
Record blob := {
  data : list Byte.byte;
  content_type : option string;
  public : bool
}.

(** The calls the service makes on the two store clients. *)
Inductive call :=
| BlobUploadFromString (key : string)
| BlobMakePublic (key : string)
| BlobPublicUrl (key : string)
| BlobDelete (key : string)
| DocumentSet (id : string)
| DocumentDelete (id : string)
| QueryStream.

Global Instance call_eq_dec : EqDecision call.
Proof. solve_decision. Defined.

(** The state the service works on: the bucket ([self.bucket]), the
    collection [self.db.collection('files')], the calls made on
    the store clients so far (oldest first) and what was printed. *)
Record world := {
  bucket : gmap string blob;
  collection : gmap string document;
  calls : list call;
  stdout : list string
}.

(** What one operation gets from outside: the two readings of
    [datetime.now()], the id [document()] generates, the URL the bucket
    issues for a key, and for each store call whether it fails and with
    which message. *)
Record env := {
  now_filename : Py.datetime;
  now_uploaded_at : Py.datetime;
  auto_id : string;
  public_url : string → string;
  fault : call → option string
}.

(** ** Exceptions and state *)

Inductive outcome (A : Type) :=
| Ok (a : A)
| Raise (msg : string).
Arguments Ok {A} a.
Arguments Raise {A} msg.

Definition M (A : Type) : Type := world → outcome A * world.

Global Instance M_ret : MRet M := λ A (a : A) w, (Ok a, w).

Global Instance M_bind : MBind M := λ A B (k : A → M B) (m : M A) w,
  match m w with
  | (Ok a, w') => k a w'
  | (Raise msg, w') => (Raise msg, w')
  end.

Definition record_call (c : call) (w : world) : world :=
  {| bucket := bucket w; collection := collection w;
     calls := calls w ++ [c]; stdout := stdout w |}.

Definition print (line : string) (w : world) : world :=
  {| bucket := bucket w; collection := collection w;
     calls := calls w; stdout := stdout w ++ [line] |}.

Definition set_bucket (b : gmap string blob) (w : world) : world :=
  {| bucket := b; collection := collection w; calls := calls w; stdout := stdout w |}.

Definition set_collection (m : gmap string document) (w : world) : world :=
  {| bucket := bucket w; collection := m; calls := calls w; stdout := stdout w |}.

(** A store call: it is logged, then either fails with the injected
    message, leaving the stores as they are, or takes effect. *)
Definition store_call {A} (e : env) (c : call) (effect : world → outcome A * world) : M A :=
  λ w, let w' := record_call c w in
       match fault e c with
       | Some msg => (Raise msg, w')
       | None => effect w'
       end.

(** ** The store clients *)

(** [blob.upload_from_string(data, content_type=...)]: creates or
    replaces the object at the key. *)
Definition upload_from_string (e : env) (key : string)
    (content : list Byte.byte) (ctype : option string) : M unit :=
  store_call e (BlobUploadFromString key) (λ w,
    (Ok (), set_bucket (<[key := {| data := content; content_type := ctype;
                                    public := false |}]> (bucket w)) w)).

(** [blob.make_public()]. *)
Definition make_public (e : env) (key : string) : M unit :=
  store_call e (BlobMakePublic key) (λ w,
    (Ok (), set_bucket (alter (λ b, {| data := data b;
                                       content_type := content_type b;
                                       public := true |}) key (bucket w)) w)).

(** [blob.public_url]. *)
Definition blob_public_url (e : env) (key : string) : M string :=
  store_call e (BlobPublicUrl key) (λ w, (Ok (public_url e key), w)).

(** [blob.delete()]: the store refuses to delete an object that is not
    there. *)
Definition not_found (key : string) : string := "404 No such object: " +:+ key.

Definition blob_delete (e : env) (key : string) : M unit :=
  store_call e (BlobDelete key) (λ w,
    match bucket w !! key with
    | None => (Raise (not_found key), w)
    | Some _ => (Ok (), set_bucket (delete key (bucket w)) w)
    end).

(** [doc_ref.set(metadata)]: creates or replaces the document. *)
Definition document_set (e : env) (id : string) (d : document) : M unit :=
  store_call e (DocumentSet id) (λ w, (Ok (), set_collection (<[id := d]> (collection w)) w)).

(** [document(doc_id).delete()]: deleting a document that is not there
    is not an error. *)
Definition document_delete (e : env) (id : string) : M unit :=
  store_call e (DocumentDelete id) (λ w, (Ok (), set_collection (delete id (collection w)) w)).

(** ** The ordered query of the catalog store

    [collection('files').order_by('uploaded_at', direction=DESCENDING)]
    is answered by the store.  It yields the documents that carry the
    field, greatest value first, documents with the same value by
    document id in the same direction.  Values of different types are
    ordered by type: null, numbers, timestamps, strings. *)

Fixpoint lex_compare (a b : list Z) : comparison :=
  match a, b with
  | [], [] => Eq
  | [], _ :: _ => Lt
  | _ :: _, [] => Gt
  | x :: a', y :: b' =>
      match x ?= y with
      | Eq => lex_compare a' b'
      | c => c
      end
  end.

Definition codes (s : string) : list Z :=
  (λ c, Z.of_N (N_of_ascii c)) <$> list_ascii_of_string s.

Definition value_key (v : value) : list Z :=
  match v with
  | VNone => [0]
  | VInt n => [2; 100 * n]
  | VFloat2 h => [2; h]
  | VTime t => 3 :: Py.fields t
  | VStr s => 4 :: codes s
  end.

Definition field_key (field : string) (d : document) : list Z :=
  from_option value_key [] (d !! field).

Definition entry_compare (field : string) (a b : string * document) : comparison :=
  match lex_compare (field_key field a.2) (field_key field b.2) with
  | Eq => lex_compare (codes a.1) (codes b.1)
  | c => c
  end.

Definition descending (field : string) : relation (string * document) :=
  λ a b, entry_compare field a b ≠ Lt.

Global Instance descending_dec field : RelDecision (descending field).
Proof. intros a b. unfold descending. apply _. Defined.

Definition order_by_descending (field : string) (m : gmap string document)
    : list (string * document) :=
  merge_sort (descending field)
    (filter (λ p, is_Some (p.2 !! field)) (map_to_list m)).

Definition stream (e : env) : M (list (string * document)) :=
  store_call e QueryStream (λ w,
    (Ok (order_by_descending "uploaded_at" (collection w)), w)).

(** ** [FileStorageManager] *)

Definition MAX_FILE_SIZE_MB : Z := 10.
Definition MAX_FILE_SIZE_BYTES : Z := MAX_FILE_SIZE_MB * 1024 * 1024.

Inductive upload_result :=
| UploadFailure (error : string)
| UploadSuccess (metadata : document) (doc_id : string).

Definition file_too_large : string :=
  "File size exceeds " +:+ Py.str MAX_FILE_SIZE_MB +:+ " MB limit".

Definition mime_value (t : option string) : value :=
  match t with
  | Some s => VStr s
  | None => VNone
  end.

(** The body of the [try] block of [upload_file] after the size check. *)
Definition upload_steps (e : env) (uploaded_file : UploadedFile.t)
    : M (document * string) :=
  let file_size := UploadedFile.size uploaded_file in
  let timestamp := Py.strftime (now_filename e) in
  let original_name := UploadedFile.name uploaded_file in
  let file_extension := (Py.splitext original_name).2 in
  let unique_filename := timestamp +:+ "_" +:+ original_name in
  upload_from_string e ("uploads/" +:+ unique_filename)
    (UploadedFile.getvalue uploaded_file) (UploadedFile.type uploaded_file);;
  make_public e ("uploads/" +:+ unique_filename);;
  download_url ← blob_public_url e ("uploads/" +:+ unique_filename);
  let metadata : document := list_to_map [
    ("original_name", VStr original_name);
    ("stored_name", VStr unique_filename);
    ("size_bytes", VInt file_size);
    ("size_mb", VFloat2 (Py.round_mb file_size));
    ("mime_type", mime_value (UploadedFile.type uploaded_file));
    ("storage_path", VStr ("uploads/" +:+ unique_filename));
    ("download_url", VStr download_url);
    ("uploaded_at", VTime (now_uploaded_at e));
    ("file_extension", VStr file_extension)
  ] in
  document_set e (auto_id e) metadata;;
  mret (metadata, auto_id e).

Definition upload_file (e : env) (uploaded_file : UploadedFile.t) (w : world)
    : upload_result * world :=
  let file_size := UploadedFile.size uploaded_file in
  if MAX_FILE_SIZE_BYTES <? file_size then
    (UploadFailure file_too_large, w)
  else
    match upload_steps e uploaded_file w with
    | (Ok (metadata, doc_id), w') => (UploadSuccess metadata doc_id, w')
    | (Raise msg, w') => (UploadFailure msg, w')
    end.

Definition get_all_files (e : env) (w : world) : list document * world :=
  match stream e w with
  | (Ok docs, w') => ((λ doc, <["id" := VStr doc.1]> doc.2) <$> docs, w')
  | (Raise msg, w') => ([], print ("Error retrieving files: " +:+ msg) w')
  end.

Inductive delete_result :=
| DeleteFailure (error : string)
| DeleteSuccess (message : string).

Definition delete_file (e : env) (doc_id storage_path : string) (w : world)
    : delete_result * world :=
  match (blob_delete e storage_path;; document_delete e doc_id) w with
  | (Ok _, w') => (DeleteSuccess "File deleted successfully", w')
  | (Raise msg, w') => (DeleteFailure msg, w')
  end.

(** [sum(...)] starts from the integer 0 and adds with [+]: integers
    stay integers, a float makes the total a float, anything else is a
    [TypeError]. *)
Inductive number :=
| NInt (n : Z)
| NFloat.

Definition type_name (v : value) : string :=
  match v with
  | VNone => "NoneType"
  | VStr _ => "str"
  | VInt _ => "int"
  | VFloat2 _ => "float"
  | VTime _ => "DatetimeWithNanoseconds"
  end.

Definition py_add (acc : number) (v : value) : outcome number :=
  match v with
  | VInt n => Ok (match acc with NInt a => NInt (a + n) | NFloat => NFloat end)
  | VFloat2 _ => Ok NFloat
  | _ => Raise ("unsupported operand type(s) for +: '"
                +:+ (match acc with NInt _ => "int" | NFloat => "float" end)
                +:+ "' and '" +:+ type_name v +:+ "'")
  end.

Fixpoint py_sum (acc : number) (vs : list value) : outcome number :=
  match vs with
  | [] => Ok acc
  | v :: vs' =>
      match py_add acc v with
      | Ok acc' => py_sum acc' vs'
      | Raise msg => Raise msg
      end
  end.

Record stats := {
  total_files : Z;
  total_size_bytes : Z;
  total_size_mb : Z  (* hundredths *)
}.

(** [get_storage_stats].  A total that is a float (some document holds
    a float under [size_bytes]) has no counterpart in [stats]; that case
    is left out of the model ([None]).  [total_size_mb] is the figure
    of the code for totals below 2^53 in absolute value (see
    [Py.round_mb]). *)
Definition get_storage_stats (e : env) (w : world) : option (stats * world) :=
  let '(files, w') := get_all_files e w in
  match py_sum (NInt 0) ((λ f : document, default (VInt 0) (f !! "size_bytes")) <$> files) with
  | Ok (NInt total) =>
      Some ({| total_files := Z.of_nat (length files);
               total_size_bytes := total;
               total_size_mb := Py.round_mb total |}, w')
  | Ok NFloat => None
  | Raise msg =>
      Some ({| total_files := 0; total_size_bytes := 0; total_size_mb := 0 |},
            print ("Error getting storage stats: " +:+ msg) w')
  end.

(** ** [firebase_config] *)

Module FirebaseConfig.

(** The process: its environment variables, the module flag
    [_initialized], the default Firebase app (the certificate path and
    the bucket it was created with) and what was printed. *)
Record process := {
  environ : gmap string string;
  _initialized : bool;
  default_app : option (string * string);
  printed : list string
}.

Definition missing_configuration : string :=
  "Missing Firebase configuration. Please set FIREBASE_CREDENTIALS_PATH "
  +:+ "and FIREBASE_STORAGE_BUCKET in your .env file".

(** [not s] for the result of [os.getenv]: [None] and the empty string
    are false values. *)
Definition falsy (s : option string) : bool :=
  match s with
  | None => true
  | Some s' => bool_decide (s' = "")
  end.

(** [credentials.Certificate(path)] reads the file at the path;
    [certificate_error path] is the message of the exception it raises,
    if it does.  [firebase_admin.initialize_app] raises when the default
    app exists already. *)
Definition initialize_firebase (certificate_error : string → option string)
    (p : process) : outcome () * process :=
  if _initialized p then (Ok (), p)
  else
    let cred_path := environ p !! "FIREBASE_CREDENTIALS_PATH" in
    let storage_bucket := environ p !! "FIREBASE_STORAGE_BUCKET" in
    let failed (msg : string) (q : process) :=
      (Raise msg,
       {| environ := environ q; _initialized := _initialized q;
          default_app := default_app q;
          printed := printed q ++ ["❌ Error initializing Firebase: " +:+ msg] |}) in
    if falsy cred_path || falsy storage_bucket then failed missing_configuration p
    else
      let cred := default "" cred_path in
      let storage := default "" storage_bucket in
      match certificate_error cred with
      | Some msg => failed msg p
      | None =>
          match default_app p with
          | Some _ => failed "The default Firebase app already exists." p
          | None =>
              (Ok (),
               {| environ := environ p; _initialized := true;
                  default_app := Some (cred, storage);
                  printed := printed p ++ ["✅ Firebase initialized successfully"] |})
          end
      end.

(** A fresh process with the given environment. *)
Definition start (vars : gmap string string) : process :=
  {| environ := vars; _initialized := false; default_app := None; printed := [] |}.

End FirebaseConfig.

(** ** Definitions used in the statements *)

Definition len (content : list Byte.byte) : Z := Z.of_nat (length content).

(** The blob key [upload_file] computes, and the four store calls it
    makes, in the order of the source. *)
Definition stored_name (e : env) (f : UploadedFile.t) : string :=
  Py.strftime (now_filename e) +:+ "_" +:+ UploadedFile.name f.

Definition storage_path (e : env) (f : UploadedFile.t) : string :=
  "uploads/" +:+ stored_name e f.

Definition upload_calls (e : env) (f : UploadedFile.t) : list call :=
  [BlobUploadFromString (storage_path e f); BlobMakePublic (storage_path e f);
   BlobPublicUrl (storage_path e f); DocumentSet (auto_id e)].

(** The [metadata] dictionary of an upload that got its URL. *)
Definition upload_metadata (e : env) (f : UploadedFile.t) : document :=
  list_to_map [
    ("original_name", VStr (UploadedFile.name f));
    ("stored_name", VStr (stored_name e f));
    ("size_bytes", VInt (UploadedFile.size f));
    ("size_mb", VFloat2 (Py.round_mb (UploadedFile.size f)));
    ("mime_type", mime_value (UploadedFile.type f));
    ("storage_path", VStr (storage_path e f));
    ("download_url", VStr (public_url e (storage_path e f)));
    ("uploaded_at", VTime (now_uploaded_at e));
    ("file_extension", VStr (Py.splitext (UploadedFile.name f)).2)
  ].

(** The object an upload leaves in the bucket once it is public. *)
Definition uploaded_blob (f : UploadedFile.t) : blob :=
  {| data := UploadedFile.getvalue f; content_type := UploadedFile.type f;
     public := true |}.

(** The world a successful upload leaves. *)
Definition uploaded_world (e : env) (f : UploadedFile.t) (w : world) : world :=
  {| bucket := <[storage_path e f := uploaded_blob f]> (bucket w);
     collection := <[auto_id e := upload_metadata e f]> (collection w);
     calls := calls w ++ upload_calls e f;
     stdout := stdout w |}.

(** A record as [get_all_files] returns it: the document with its id
    stored under ['id']. *)
Definition with_id (doc : string * document) : document :=
  <["id" := VStr doc.1]> doc.2.

(** [f.get('size_bytes', 0)] when it is an integer. *)
Definition size_bytes_of (f : document) : Z :=
  match f !! "size_bytes" with
  | Some (VInt n) => n
  | _ => 0
  end.

Definition sum_size_bytes (files : list document) : Z :=
  foldr (λ f acc, size_bytes_of f + acc) 0 files.

(** [size_bytes] is an integer or absent, as the data model has it. *)
Definition size_bytes_typed (f : document) : Prop :=
  match f !! "size_bytes" with
  | None | Some (VInt _) => True
  | Some _ => False
  end.

Global Instance size_bytes_typed_dec f : Decision (size_bytes_typed f).
Proof.
  unfold size_bytes_typed.
  destruct (f !! "size_bytes") as [[]|]; apply _.
Defined.

(** Python's order on [datetime] values. *)
Definition datetime_lt (a b : Py.datetime) : Prop :=
  lex_compare (Py.fields a) (Py.fields b) = Lt.

Global Instance datetime_lt_dec : RelDecision datetime_lt.
Proof. intros a b. unfold datetime_lt. apply _. Defined.

(** [a] is listed before [b] when ordering by [uploaded_at], most
    recent first. *)
Definition uploaded_at_desc (a b : document) : Prop :=
  lex_compare (field_key "uploaded_at" a) (field_key "uploaded_at" b) ≠ Lt.

(** A run of uploads, one after the other. *)
Fixpoint uploads (reqs : list (env * UploadedFile.t)) (w : world)
    : list upload_result * world :=
  match reqs with
  | [] => ([], w)
  | req :: rest =>
      let '(r, w1) := upload_file req.1 req.2 w in
      let '(rs, w2) := uploads rest w1 in
      (r :: rs, w2)
  end.

(** The catalog entry an upload request makes when it succeeds. *)
Definition entry_of (req : env * UploadedFile.t) : string * document :=
  (auto_id req.1, upload_metadata req.1 req.2).

(** The upload times of a run of requests strictly increase. *)
Definition increasing_times (reqs : list (env * UploadedFile.t)) : Prop :=
  Sorted (λ a b, datetime_lt (now_uploaded_at a.1) (now_uploaded_at b.1)) reqs.

Global Instance increasing_times_dec reqs : Decision (increasing_times reqs).
Proof. unfold increasing_times. apply _. Defined.

Definition is_success (r : upload_result) : Prop :=
  match r with
  | UploadSuccess _ _ => True
  | UploadFailure _ => False
  end.

Global Instance is_success_dec r : Decision (is_success r).
Proof. destruct r; apply _. Defined.

(** The record a successful upload shows up as in the listing. *)
Definition listed (r : upload_result) : document :=
  match r with
  | UploadSuccess metadata doc_id => with_id (doc_id, metadata)
  | UploadFailure _ => ∅
  end.

(** The documents the service writes: an integer [size_bytes] and a
    timestamp [uploaded_at]. *)
Definition well_formed (d : document) : Prop :=
  (∃ n, d !! "size_bytes" = Some (VInt n)) ∧
  (∃ t, d !! "uploaded_at" = Some (VTime t)).

(** The worlds the service reaches when it alone writes the catalog,
    starting from an empty one. *)
Inductive reachable : world → Prop :=
| reachable_empty w : collection w = ∅ → reachable w
| reachable_upload e f w : reachable w → reachable (upload_file e f w).2
| reachable_delete e doc_id path w :
    reachable w → reachable (delete_file e doc_id path w).2
| reachable_list e w : reachable w → reachable (get_all_files e w).2
| reachable_stats e w s w' :
    reachable w → get_storage_stats e w = Some (s, w') → reachable w'.

(** The spec's words for the extension, the final dot-segment of the
    name: the part of the name from its last dot on, empty when the
    name has no dot. *)
Definition final_dot_segment (name : string) : string :=
  let i := Py.rfind "." name in
  if 0 <=? i then Py.slice_from i name else "".

(** Concrete inputs for the examples. *)
Module Ex.

Definition empty_world : world :=
  {| bucket := ∅; collection := ∅; calls := []; stdout := [] |}.

Definition at_second (s : Z) : Py.datetime :=
  {| Py.year := 2024; Py.month := 3; Py.day := 9;
     Py.hour := 14; Py.minute := 5; Py.second := s; Py.microsecond := 123456 |}.

Definition url_of (key : string) : string :=
  "https://storage.googleapis.com/mini-cloud/" +:+ key.

Definition no_fault : call → option string := λ _, None.

Definition env_at (s : Z) (id : string) (flt : call → option string) : env :=
  {| now_filename := at_second s; now_uploaded_at := at_second s;
     auto_id := id; public_url := url_of; fault := flt |}.

Definition abcde : list Byte.byte :=
  [Byte.x61; Byte.x62; Byte.x63; Byte.x64; Byte.x65].

Definition a_txt : UploadedFile.t :=
  {| UploadedFile.name := "a.txt"; UploadedFile.type := Some "text/plain";
     UploadedFile.size := 5; UploadedFile.getvalue := abcde |}.





(** Exactly at the limit according to the [size] attribute. *)
Definition at_limit : UploadedFile.t :=
  {| UploadedFile.name := "limit.bin"; UploadedFile.type := None;
     UploadedFile.size := MAX_FILE_SIZE_BYTES; UploadedFile.getvalue := abcde |}.

(** A file whose name is a leading dot and a word. *)
Definition dotfile : UploadedFile.t :=
  {| UploadedFile.name := ".gitignore"; UploadedFile.type := None;
     UploadedFile.size := 5; UploadedFile.getvalue := abcde |}.

(** Three uploads, one second apart. *)
Definition named (name : string) : UploadedFile.t :=
  {| UploadedFile.name := name; UploadedFile.type := Some "text/plain";
     UploadedFile.size := 5; UploadedFile.getvalue := abcde |}.

Definition three_uploads : list (env * UploadedFile.t) :=
  [(env_at 1 "p" no_fault, named "one.txt");
   (env_at 2 "r" no_fault, named "two.txt");
   (env_at 3 "q" no_fault, named "three.txt")].

Definition fails_on (c : call) (msg : string) : call → option string :=
  λ c', if bool_decide (c' = c) then Some msg else None.

End Ex.

(** ** [firebase_config]: the store handles *)

(** [storage.bucket()]: the bucket of the default app.  The SDK raises
    when there is no default app, or when the app has no bucket name. *)
Definition storage_bucket (p : FirebaseConfig.process) : outcome string :=
  match FirebaseConfig.default_app p with
  | None => Raise "The default Firebase app does not exist."
  | Some (_, name) =>
      if bool_decide (name = "") then Raise "Storage bucket name not specified."
      else Ok name
  end.

(** [firestore.client()]: the client of the default app, here the
    certificate path it works with.  The SDK raises when there is no
    default app; [client_error] is the message of the exception it
    raises otherwise, if it does (no project id in the credentials). *)
Definition firestore_client (client_error : string → option string)
    (p : FirebaseConfig.process) : outcome string :=
  match FirebaseConfig.default_app p with
  | None => Raise "The default Firebase app does not exist."
  | Some (cred, _) =>
      match client_error cred with
      | Some msg => Raise msg
      | None => Ok cred
      end
  end.

(** [if not _initialized: initialize_firebase()]. *)
Definition ensure_initialized (certificate_error : string → option string)
    (p : FirebaseConfig.process) : outcome () * FirebaseConfig.process :=
  if FirebaseConfig._initialized p then (Ok (), p)
  else FirebaseConfig.initialize_firebase certificate_error p.

Definition get_storage_bucket (certificate_error : string → option string)
    (p : FirebaseConfig.process) : outcome string * FirebaseConfig.process :=
  match ensure_initialized certificate_error p with
  | (Ok _, p') => (storage_bucket p', p')
  | (Raise msg, p') => (Raise msg, p')
  end.

Definition get_firestore_db (certificate_error client_error : string → option string)
    (p : FirebaseConfig.process) : outcome string * FirebaseConfig.process :=
  match ensure_initialized certificate_error p with
  | (Ok _, p') => (firestore_client client_error p', p')
  | (Raise msg, p') => (Raise msg, p')
  end.

(** [FileStorageManager.__init__]: the two handles and the name of the
    collection. *)
Module FileStorageManager.

Record t := {
  bucket : string;
  db : string;
  collection_name : string
}.

Definition __init__ (certificate_error client_error : string → option string)
    (p : FirebaseConfig.process) : outcome t * FirebaseConfig.process :=
  match get_storage_bucket certificate_error p with
  | (Raise msg, p1) => (Raise msg, p1)
  | (Ok b, p1) =>
      match get_firestore_db certificate_error client_error p1 with
      | (Raise msg, p2) => (Raise msg, p2)
      | (Ok d, p2) => (Ok {| bucket := b; db := d; collection_name := "files" |}, p2)
      end
  end.

End FileStorageManager.

(** The processes that arise from a fresh one by calls of the module's
    functions, the environment possibly changing in between. *)
Inductive booted : FirebaseConfig.process → Prop :=
| booted_start vars : booted (FirebaseConfig.start vars)
| booted_initialize cert p :
    booted p → booted (FirebaseConfig.initialize_firebase cert p).2
| booted_setenv vars p :
    booted p →
    booted {| FirebaseConfig.environ := vars;
              FirebaseConfig._initialized := FirebaseConfig._initialized p;
              FirebaseConfig.default_app := FirebaseConfig.default_app p;
              FirebaseConfig.printed := FirebaseConfig.printed p |}.

(** The flag and the default app go together, and the app was created
    from non-empty settings. *)
Definition coherent (p : FirebaseConfig.process) : Prop :=
  (FirebaseConfig._initialized p = true ↔ is_Some (FirebaseConfig.default_app p)) ∧
  (∀ c b, FirebaseConfig.default_app p = Some (c, b) → c ≠ "" ∧ b ≠ "").

(** The environment has both settings, non-empty. *)
Definition configured (p : FirebaseConfig.process) (cred storage : string) : Prop :=
  FirebaseConfig.environ p !! "FIREBASE_CREDENTIALS_PATH" = Some cred ∧
  FirebaseConfig.environ p !! "FIREBASE_STORAGE_BUCKET" = Some storage ∧
  cred ≠ "" ∧ storage ≠ "".

Definition initialized_line : string := "✅ Firebase initialized successfully".

(** Further concrete inputs. *)
Module More.

Definition vwxyz : list Byte.byte :=
  [Byte.x76; Byte.x77; Byte.x78; Byte.x79; Byte.x7a].

(** Another file named "a.txt", with other content. *)
Definition a_txt_again : UploadedFile.t :=
  {| UploadedFile.name := "a.txt"; UploadedFile.type := Some "text/plain";
     UploadedFile.size := 5; UploadedFile.getvalue := vwxyz |}.

(** A file without a content type. *)
Definition untyped : UploadedFile.t :=
  {| UploadedFile.name := "notes"; UploadedFile.type := None;
     UploadedFile.size := 2048; UploadedFile.getvalue := vwxyz |}.

(** The world after two uploads into an empty one. *)
Definition two_files : world :=
  (upload_file (Ex.env_at 2 "r" Ex.no_fault) untyped
     (upload_file (Ex.env_at 1 "p" Ex.no_fault) Ex.a_txt Ex.empty_world).2).2.

End More.

(** ** [app]: what the page computes *)

Module App.

(** [str(n)] for any integer. *)
Definition str_int (n : Z) : string :=
  if n <? 0 then "-" +:+ Py.str (- n) else Py.str n.

(** [f"{x:.2f}"] for a float [x >= 0] whose value, rounded to two
    decimal places ties to even, is [h] hundredths: the integer part,
    a point, two digits. *)
Definition format_2f (h : Z) : string :=
  Py.str (h / 100) +:+ "." +:+ Py.zfill 2 (Py.str (h mod 100)).

(** [format_file_size] for sizes below 2^53, where the quotients
    [size_bytes / 1024] and [size_bytes / (1024 * 1024)] are exact in
    binary64 and [.2f] rounds the exact value correctly.  From 2^53 on
    the code formats the binary64 quotient, which this definition does
    not follow. *)
Definition format_file_size (size_bytes : Z) : string :=
  if size_bytes <? 1024 then str_int size_bytes +:+ " B"
  else if size_bytes <? 1024 * 1024 then
    format_2f (Py.round_half_even (100 * size_bytes) 1024) +:+ " KB"
  else
    format_2f (Py.round_half_even (100 * size_bytes) (1024 * 1024)) +:+ " MB".

End App.

(** Two decimal digits, and four. *)
Definition two_digits (n : Z) : string :=
  String (Py.digit (n / 10)) (String (Py.digit (n mod 10)) "").

Definition four_digits (n : Z) : string :=
  String (Py.digit (n / 1000)) (String (Py.digit (n / 100 mod 10))
    (String (Py.digit (n / 10 mod 10)) (String (Py.digit (n mod 10)) ""))).

(** The range of a clock reading, as far as the timestamp of the stored
    name shows it (years of four digits). *)
Definition valid_datetime (d : Py.datetime) : Prop :=
  1000 ≤ Py.year d ≤ 9999 ∧ 1 ≤ Py.month d ≤ 12 ∧ 1 ≤ Py.day d ≤ 31 ∧
  0 ≤ Py.hour d ≤ 23 ∧ 0 ≤ Py.minute d ≤ 59 ∧ 0 ≤ Py.second d ≤ 59.

(** Two clock readings within the same second. *)
Definition same_second (a b : Py.datetime) : Prop :=
  Py.year a = Py.year b ∧ Py.month a = Py.month b ∧ Py.day a = Py.day b ∧
  Py.hour a = Py.hour b ∧ Py.minute a = Py.minute b ∧ Py.second a = Py.second b.

(** ** [app]: the table of the files tab

    The part of [main] that builds [file_data] from the listing (the
    loop over [files] in the "My Files" tab). *)

(** [f[key]]: a missing key is a [KeyError]. *)
Definition getitem (f : document) (key : string) : outcome value :=
  match f !! key with
  | Some v => Ok v
  | None => Raise ("'" +:+ key +:+ "'")
  end.

(** Python's truth value of a record's field, for [x or 'Unknown']. *)
Definition truthy (v : value) : bool :=
  match v with
  | VNone => false
  | VStr s => negb (bool_decide (s = ""))
  | VInt n => negb (n =? 0)
  | VFloat2 h => negb (h =? 0)
  | VTime _ => true
  end.

(** [d.strftime('%Y-%m-%d %H:%M:%S')]. *)
Definition strftime_display (d : Py.datetime) : string :=
  Py.zfill 4 (Py.str (Py.year d)) +:+ "-" +:+ Py.zfill 2 (Py.str (Py.month d))
  +:+ "-" +:+ Py.zfill 2 (Py.str (Py.day d)) +:+ " " +:+
  Py.zfill 2 (Py.str (Py.hour d)) +:+ ":" +:+ Py.zfill 2 (Py.str (Py.minute d))
  +:+ ":" +:+ Py.zfill 2 (Py.str (Py.second d)).

(** A step that raises, returns, or falls outside this model ([None]:
    a float where the page formats a size or a date). *)
Definition and_then {A B} (x : option (outcome A)) (k : A → option (outcome B))
    : option (outcome B) :=
  match x with
  | None => None
  | Some (Raise msg) => Some (Raise msg)
  | Some (Ok a) => k a
  end.

(** [format_file_size(f['size_bytes'])] on a field: [None], a string or
    a timestamp cannot be compared with 1024. *)
Definition format_size_field (v : value) : option (outcome string) :=
  match v with
  | VInt n => Some (Ok (App.format_file_size n))
  | VFloat2 _ => None
  | _ => Some (Raise ("'<' not supported between instances of '"
                      +:+ type_name v +:+ "' and 'int'"))
  end.

(** The 'Uploaded' cell: the formatted time of a [datetime], the
    [str()] of anything else. *)
Definition uploaded_cell (v : value) : option (outcome string) :=
  match v with
  | VTime t => Some (Ok (strftime_display t))
  | VStr s => Some (Ok s)
  | VNone => Some (Ok "None")
  | VInt n => Some (Ok (App.str_int n))
  | VFloat2 _ => None
  end.

(** One row of [file_data]; the entries of the dictionary are
    evaluated in the order they are written. *)
Definition file_row (f : document) : option (outcome document) :=
  and_then (Some (getitem f "original_name")) (λ name,
  and_then (Some (getitem f "size_bytes")) (λ size_bytes,
  and_then (format_size_field size_bytes) (λ size,
  and_then (Some (getitem f "mime_type")) (λ mime,
  and_then (Some (getitem f "uploaded_at")) (λ uploaded_at,
  and_then (uploaded_cell uploaded_at) (λ uploaded,
  and_then (Some (getitem f "storage_path")) (λ path,
  and_then (Some (getitem f "download_url")) (λ url,
  Some (Ok (list_to_map [
    ("File Name", name);
    ("Size", VStr size);
    ("Type", if truthy mime then mime else VStr "Unknown");
    ("Uploaded", VStr uploaded);
    ("Storage Path", path);
    ("Download URL", url)
  ] : document)))))))))).

(** The loop [for f in files: file_data.append({...})]. *)
Fixpoint file_data (files : list document) : option (outcome (list document)) :=
  match files with
  | [] => Some (Ok [])
  | f :: rest =>
      and_then (file_row f) (λ row,
      and_then (file_data rest) (λ rows, Some (Ok (row :: rows))))
  end.

(** What a row shows of a record. *)
Definition row_of (f row : document) : Prop :=
  row !! "File Name" = f !! "original_name" ∧
  (∃ n, f !! "size_bytes" = Some (VInt n) ∧
        row !! "Size" = Some (VStr (App.format_file_size n))) ∧
  (∃ mime, f !! "mime_type" = Some mime ∧
           row !! "Type" = Some (if truthy mime then mime else VStr "Unknown")) ∧
  (∃ t, f !! "uploaded_at" = Some (VTime t) ∧
        row !! "Uploaded" = Some (VStr (strftime_display t))) ∧
  row !! "Storage Path" = f !! "storage_path" ∧
  row !! "Download URL" = f !! "download_url".

(** ** Tactics *)

(** Membership in the list of the four calls of an upload. *)
Ltac in_upload_calls :=
  unfold upload_calls;
  repeat first [apply list_elem_of_here | apply list_elem_of_further].

(** Unfolds [upload_file] down to the tests on the injected faults. *)
Ltac unfold_upload e f :=
  unfold upload_file, upload_steps, upload_from_string, make_public,
    blob_public_url, document_set, store_call, mbind, M_bind, mret, M_ret;
  fold (stored_name e f); fold (storage_path e f).

(** * Properties *)

(** ** The Python helpers on concrete inputs *)

Example str_10 : Py.str 10 = "10".
Proof. reflexivity. Qed.

Example str_0 : Py.str 0 = "0".
Proof. reflexivity. Qed.

Example strftime_ex : Py.strftime (Ex.at_second 7) = "20240309_140507".
Proof. reflexivity. Qed.

Example file_too_large_text : file_too_large = "File size exceeds 10 MB limit".
Proof. reflexivity. Qed.

Example max_file_size : MAX_FILE_SIZE_BYTES = 10485760.
Proof. reflexivity. Qed.

Example splitext_txt : Py.splitext "a.txt" = ("a", ".txt").
Proof. reflexivity. Qed.

Example splitext_tar_gz : Py.splitext "archive.tar.gz" = ("archive.tar", ".gz").
Proof. reflexivity. Qed.

Example splitext_hidden : Py.splitext ".bashrc" = (".bashrc", "").
Proof. reflexivity. Qed.

Example splitext_dir_dot : Py.splitext "a.b/c" = ("a.b/c", "").
Proof. reflexivity. Qed.

Example splitext_dots : Py.splitext "...a.b" = ("...a", ".b").
Proof. reflexivity. Qed.

Example splitext_none : Py.splitext "README" = ("README", "").
Proof. reflexivity. Qed.

Example round_mb_5 : Py.round_mb 5 = 0.
Proof. reflexivity. Qed.

Example round_mb_tie_down : Py.round_mb 131072 = 12.
Proof. reflexivity. Qed.

Example round_mb_tie_up : Py.round_mb 393216 = 38.
Proof. reflexivity. Qed.

Example round_mb_limit : Py.round_mb MAX_FILE_SIZE_BYTES = 1000.
Proof. reflexivity. Qed.

(** ** Rounding *)

Lemma round_half_even_nearest a b :
  0 < b → 2 * Z.abs (a - Py.round_half_even a b * b) ≤ b.
Proof.
  intros Hb. unfold Py.round_half_even.
  pose proof (Z.div_mod a b ltac:(lia)) as Hdiv.
  pose proof (Z.mod_pos_bound a b Hb) as Hmod.
  destruct (2 * (a `mod` b) <? b) eqn:H1; [apply Z.ltb_lt in H1; lia|].
  apply Z.ltb_ge in H1.
  destruct (b <? 2 * (a `mod` b)) eqn:H2.
  - apply Z.ltb_lt in H2. lia.
  - apply Z.ltb_ge in H2. destruct (Z.even (a `div` b)); lia.
Qed.

(** [round_mb n] is a number of hundredths nearest to [n / 2^20]. *)
Lemma round_mb_nearest n :
  Z.abs (100 * n - Py.round_mb n * 1048576) ≤ 524288.
Proof.
  pose proof (round_half_even_nearest (100 * n) (1024 * 1024) ltac:(lia)) as H.
  unfold Py.round_mb. change (1024 * 1024) with 1048576 in *. lia.
Qed.

(** ** [os.path.splitext] *)

Lemma rfind_from_range i c p :
  Py.rfind_from i c p = -1 ∨ i ≤ Py.rfind_from i c p.
Proof.
  revert i. induction p as [|a p IH]; intros i; simpl; [by left|].
  destruct (IH (i + 1)) as [-> | Hge].
  - simpl. destruct (Ascii.eqb a c); [right; lia | by left].
  - destruct (0 <=? Py.rfind_from (i + 1) c p) eqn:Hr.
    + right. lia.
    + destruct (Ascii.eqb a c); [right; lia | by left].
Qed.

Lemma rfind_lower c p : -1 ≤ Py.rfind c p.
Proof. unfold Py.rfind. destruct (rfind_from_range 0 c p); lia. Qed.

(** The extension [os.path.splitext] returns is empty or the final
    dot-segment of the name. *)
Lemma splitext_final_dot_segment p :
  (Py.splitext p).2 = "" ∨ (Py.splitext p).2 = final_dot_segment p.
Proof.
  unfold Py.splitext, final_dot_segment.
  pose proof (rfind_lower "/" p) as Hsep.
  destruct (Py.rfind "/" p <? Py.rfind "." p) eqn:Hlt; simpl; [|by left].
  destruct (Py.has_non_dot _ _ _); simpl; [|by left].
  right. apply Z.ltb_lt in Hlt.
  destruct (0 <=? Py.rfind "." p) eqn:H0; [done|]. apply Z.leb_gt in H0. lia.
Qed.

(** It is the final dot-segment exactly when the last dot comes after
    the last slash and after some character of the file name that is
    not a dot. *)
Lemma splitext_ext_cases p :
  (Py.splitext p).2 =
    if (Py.rfind "/" p <? Py.rfind "." p)
       && Py.has_non_dot p (Z.to_nat (Py.rfind "/" p + 1))
            (Z.to_nat (Py.rfind "." p - (Py.rfind "/" p + 1)))
    then final_dot_segment p else "".
Proof.
  unfold Py.splitext, final_dot_segment.
  pose proof (rfind_lower "/" p) as Hsep.
  destruct (Py.rfind "/" p <? Py.rfind "." p) eqn:Hlt; simpl; [|done].
  destruct (Py.has_non_dot _ _ _); simpl; [|done].
  apply Z.ltb_lt in Hlt.
  destruct (0 <=? Py.rfind "." p) eqn:H0; [done|]. apply Z.leb_gt in H0. lia.
Qed.

Lemma rfind_from_get i c p :
  0 ≤ i → 0 ≤ Py.rfind_from i c p →
  String.get (Z.to_nat (Py.rfind_from i c p - i)) p = Some c.
Proof.
  revert i. induction p as [|a p IH]; intros i Hi; simpl; [lia|].
  destruct (rfind_from_range (i + 1) c p) as [Hr | Hr].
  - rewrite Hr. simpl. destruct (Ascii.eqb_spec a c) as [-> | _]; [|lia].
    intros _. by rewrite Z.sub_diag.
  - destruct (Z.leb_spec 0 (Py.rfind_from (i + 1) c p)) as [H0 | H0]; [|lia].
    intros _. specialize (IH (i + 1) ltac:(lia) H0).
    replace (Z.to_nat (Py.rfind_from (i + 1) c p - i))
      with (S (Z.to_nat (Py.rfind_from (i + 1) c p - (i + 1)))) by lia.
    done.
Qed.

Lemma rfind_get c p :
  0 ≤ Py.rfind c p → String.get (Z.to_nat (Py.rfind c p)) p = Some c.
Proof.
  intros H. pose proof (rfind_from_get 0 c p ltac:(lia) H) as Hget.
  by rewrite Z.sub_0_r in Hget.
Qed.

(** For a name without a slash that does not begin with a dot, the
    extension is the final dot-segment. *)
Lemma splitext_plain_name p :
  Py.rfind "/" p = -1 → String.get 0 p ≠ Some "."%char →
  (Py.splitext p).2 = final_dot_segment p.
Proof.
  intros Hsep Hfirst. rewrite splitext_ext_cases, Hsep.
  pose proof (rfind_lower "." p) as Hlow.
  destruct (Z.ltb_spec (-1) (Py.rfind "." p)) as [Hdot | Hdot]; simpl.
  - pose proof (rfind_get "." p ltac:(lia)) as Hget.
    destruct (Z.to_nat (Py.rfind "." p - (-1 + 1))) as [|k] eqn:Hk.
    { replace (Z.to_nat (Py.rfind "." p)) with 0%nat in Hget by lia. done. }
    simpl. change (Z.to_nat (-1 + 1)) with 0%nat.
    destruct (String.get 0 p) as [c|] eqn:Hc; [|done].
    destruct (Ascii.eqb_spec c "."); [by subst c | done].
  - unfold final_dot_segment.
    destruct (Z.leb_spec 0 (Py.rfind "." p)); [lia | done].
Qed.

(** The timestamp in the stored name has second precision: the
    microseconds of the clock reading do not show in it. *)
Lemma strftime_second_precision d us :
  Py.strftime {| Py.year := Py.year d; Py.month := Py.month d; Py.day := Py.day d;
                 Py.hour := Py.hour d; Py.minute := Py.minute d;
                 Py.second := Py.second d; Py.microsecond := us |}
  = Py.strftime d.
Proof. reflexivity. Qed.

(** ** The order of the query *)

Lemma lex_compare_refl a : lex_compare a a = Eq.
Proof. induction a as [|x a IH]; simpl; [done|]. by rewrite Z.compare_refl. Qed.

Lemma lex_compare_cons x a b : lex_compare (x :: a) (x :: b) = lex_compare a b.
Proof. simpl. by rewrite Z.compare_refl. Qed.

Lemma lex_compare_eq a b : lex_compare a b = Eq → a = b.
Proof.
  revert b. induction a as [|x a IH]; intros [|y b]; simpl; try done.
  destruct (x ?= y) eqn:Hxy; try done.
  apply Z.compare_eq in Hxy. intros H. f_equal; auto.
Qed.

Lemma lex_compare_antisym a b : lex_compare b a = CompOpp (lex_compare a b).
Proof.
  revert b. induction a as [|x a IH]; intros [|y b]; simpl; try done.
  rewrite (Z.compare_antisym x y).
  destruct (x ?= y); simpl; auto.
Qed.

Lemma lex_compare_lt_trans a b c :
  lex_compare a b = Lt → lex_compare b c = Lt → lex_compare a c = Lt.
Proof.
  revert b c. induction a as [|x a IH]; intros [|y b] [|z c]; simpl; try done.
  destruct (x ?= y) eqn:Hxy; try done.
  - apply Z.compare_eq in Hxy. subst y.
    destruct (x ?= z); try done. apply IH.
  - intros _. destruct (y ?= z) eqn:Hyz; try done.
    + apply Z.compare_eq in Hyz. subst z. by rewrite Hxy.
    + intros _. assert ((x ?= z) = Lt) as ->; [|done].
      rewrite Z.compare_lt_iff in *. lia.
Qed.

Lemma codes_inj s1 s2 : codes s1 = codes s2 → s1 = s2.
Proof.
  unfold codes. intros H.
  rewrite <-(string_of_list_ascii_of_string s1), <-(string_of_list_ascii_of_string s2).
  f_equal. revert H. generalize (list_ascii_of_string s1) (list_ascii_of_string s2).
  induction l as [|c l IH]; intros [|c' l']; simpl; try done.
  intros [= Hc Hl]. f_equal; [|by apply IH].
  apply N2Z.inj in Hc.
  by rewrite <-(ascii_N_embedding c), <-(ascii_N_embedding c'), Hc.
Qed.

Lemma entry_compare_antisym field a b :
  entry_compare field b a = CompOpp (entry_compare field a b).
Proof.
  unfold entry_compare.
  rewrite (lex_compare_antisym (field_key field a.2)).
  rewrite (lex_compare_antisym (codes a.1)).
  by destruct (lex_compare (field_key field a.2) (field_key field b.2)).
Qed.

Lemma entry_compare_eq field a b :
  entry_compare field a b = Eq →
  field_key field a.2 = field_key field b.2 ∧ a.1 = b.1.
Proof.
  unfold entry_compare.
  destruct (lex_compare (field_key field a.2) (field_key field b.2)) eqn:Hk; try done.
  intros Hid. split; [by apply lex_compare_eq | by apply codes_inj, lex_compare_eq].
Qed.

Lemma entry_compare_lt_trans field a b c :
  entry_compare field a b = Lt → entry_compare field b c = Lt →
  entry_compare field a c = Lt.
Proof.
  unfold entry_compare.
  destruct (lex_compare (field_key field a.2) (field_key field b.2)) eqn:Hab; try done.
  - apply lex_compare_eq in Hab. rewrite Hab.
    destruct (lex_compare (field_key field b.2) (field_key field c.2)); try done.
    apply lex_compare_lt_trans.
  - intros _.
    destruct (lex_compare (field_key field b.2) (field_key field c.2)) eqn:Hbc; try done.
    + apply lex_compare_eq in Hbc. by rewrite <-Hbc, Hab.
    + intros _. by rewrite (lex_compare_lt_trans _ _ _ Hab Hbc).
Qed.

Global Instance descending_total field : Total (descending field).
Proof.
  intros a b. unfold descending. rewrite (entry_compare_antisym field a b).
  destruct (entry_compare field a b); simpl; auto.
Qed.

Global Instance descending_trans field : Transitive (descending field).
Proof.
  intros a b c. unfold descending. intros Hab Hbc Hac.
  destruct (entry_compare field b c) eqn:Hcmp; [| done |].
  - apply entry_compare_eq in Hcmp as [Hk Hi].
    apply Hab. unfold entry_compare in *. by rewrite Hk, Hi.
  - apply Hab. apply (entry_compare_lt_trans field a c b Hac).
    by rewrite (entry_compare_antisym field b c), Hcmp.
Qed.

Lemma order_by_descending_perm field m :
  order_by_descending field m ≡ₚ
    filter (λ p, is_Some (p.2 !! field)) (map_to_list m).
Proof. apply merge_sort_Permutation. Qed.

Lemma order_by_descending_sorted field m :
  StronglySorted (descending field) (order_by_descending field m).
Proof. apply (StronglySorted_merge_sort _). Qed.

(** The query yields exactly the documents that carry the field. *)
Lemma elem_of_order_by_descending field m id d :
  (id, d) ∈ order_by_descending field m ↔ m !! id = Some d ∧ is_Some (d !! field).
Proof.
  rewrite order_by_descending_perm, list_elem_of_filter, elem_of_map_to_list.
  simpl. tauto.
Qed.

Lemma filter_all {A} (P : A → Prop) `{!∀ x, Decision (P x)} (l : list A) :
  Forall P l → filter P l = l.
Proof.
  induction 1 as [|x l Hx _ IH]; [done|].
  by rewrite filter_cons_True, IH.
Qed.

Lemma order_by_descending_all field m :
  map_Forall (λ _ d, is_Some (d !! field)) m →
  order_by_descending field m ≡ₚ map_to_list m.
Proof.
  intros Hall. rewrite order_by_descending_perm.
  rewrite filter_all; [done|].
  apply Forall_forall. intros [id d] Hin. apply elem_of_map_to_list in Hin.
  by apply (Hall id d).
Qed.

Lemma field_key_with_id field doc :
  field ≠ "id" → field_key field (with_id doc) = field_key field doc.2.
Proof.
  intros Hne. unfold field_key, with_id. by rewrite lookup_insert_ne.
Qed.

(** On timestamps the order of the listing is Python's order on
    [datetime]: a record is never listed before a later one. *)
Lemma uploaded_at_desc_times (a b : document) ta tb :
  a !! "uploaded_at" = Some (VTime ta) → b !! "uploaded_at" = Some (VTime tb) →
  uploaded_at_desc a b ↔ ¬ datetime_lt ta tb.
Proof.
  intros Ha Hb. unfold uploaded_at_desc, datetime_lt, field_key.
  rewrite Ha, Hb. simpl from_option. unfold value_key.
  by rewrite lex_compare_cons.
Qed.

Lemma descending_uploaded_at a b :
  descending "uploaded_at" a b → uploaded_at_desc (with_id a) (with_id b).
Proof.
  unfold descending, uploaded_at_desc, entry_compare.
  rewrite !field_key_with_id by done.
  by destruct (lex_compare (field_key "uploaded_at" a.2) (field_key "uploaded_at" b.2)).
Qed.

(** ** [upload_file], step by step *)

Lemma upload_file_gate e f w :
  MAX_FILE_SIZE_BYTES < UploadedFile.size f →
  upload_file e f w = (UploadFailure file_too_large, w).
Proof.
  intros H. unfold upload_file.
  by destruct (Z.ltb_spec MAX_FILE_SIZE_BYTES (UploadedFile.size f)); [|lia].
Qed.

Lemma upload_file_ok e f w :
  UploadedFile.size f ≤ MAX_FILE_SIZE_BYTES →
  (∀ c, c ∈ upload_calls e f → fault e c = None) →
  upload_file e f w
  = (UploadSuccess (upload_metadata e f) (auto_id e), uploaded_world e f w).
Proof.
  intros Hsz Hok. unfold_upload e f.
  destruct (Z.ltb_spec MAX_FILE_SIZE_BYTES (UploadedFile.size f)); [lia|].
  rewrite !Hok by in_upload_calls.
  f_equal. unfold uploaded_world, record_call, set_bucket, set_collection; simpl.
  f_equal.
  - rewrite alter_insert_eq. done.
  - by rewrite <-!app_assoc.
Qed.

Lemma upload_file_success_inv e f w md id w' :
  upload_file e f w = (UploadSuccess md id, w') →
  UploadedFile.size f ≤ MAX_FILE_SIZE_BYTES ∧
  (∀ c, c ∈ upload_calls e f → fault e c = None) ∧
  md = upload_metadata e f ∧ id = auto_id e ∧ w' = uploaded_world e f w.
Proof.
  intros Hup.
  assert (UploadedFile.size f ≤ MAX_FILE_SIZE_BYTES ∧
          (∀ c, c ∈ upload_calls e f → fault e c = None)) as [Hsz Hok].
  { revert Hup. unfold_upload e f.
    destruct (Z.ltb_spec MAX_FILE_SIZE_BYTES (UploadedFile.size f)); [done|].
    destruct (fault e (BlobUploadFromString _)) eqn:F1; [done|].
    destruct (fault e (BlobMakePublic _)) eqn:F2; [done|].
    destruct (fault e (BlobPublicUrl _)) eqn:F3; [done|].
    destruct (fault e (DocumentSet _)) eqn:F4; [done|].
    intros _. split; [done|]. unfold upload_calls. intros c Hc.
    repeat (apply elem_of_cons in Hc as [-> | Hc]; [done|]).
    by apply elem_of_nil in Hc. }
  rewrite (upload_file_ok e f w Hsz Hok) in Hup.
  by injection Hup as <- <- <-.
Qed.

(** Whatever happens, the calls [upload_file] makes are an initial
    part of: write the blob, make it public, get its URL, insert the
    metadata. *)
Lemma upload_file_calls e f w :
  ∃ new, calls (upload_file e f w).2 = calls w ++ new ∧
         new `prefix_of` upload_calls e f.
Proof.
  unfold_upload e f. unfold upload_calls.
  destruct (MAX_FILE_SIZE_BYTES <? UploadedFile.size f).
  { exists []. simpl. split; [by rewrite app_nil_r | apply prefix_nil]. }
  destruct (fault e (BlobUploadFromString _)); simpl.
  { eexists [_]. split; [done|]. by eexists. }
  destruct (fault e (BlobMakePublic _)); simpl.
  { eexists [_; _]. rewrite <-app_assoc. split; [done|]. by eexists. }
  destruct (fault e (BlobPublicUrl _)); simpl.
  { eexists [_; _; _]. rewrite <-!app_assoc. split; [done|]. by eexists. }
  destruct (fault e (DocumentSet _)); simpl.
  all: eexists [_; _; _; _]; rewrite <-!app_assoc; split; done.
Qed.

(** A failed upload leaves the catalog as it was. *)
Lemma upload_file_failure_collection e f w msg w' :
  upload_file e f w = (UploadFailure msg, w') → collection w' = collection w.
Proof.
  unfold_upload e f.
  destruct (MAX_FILE_SIZE_BYTES <? UploadedFile.size f); [by intros [= _ <-]|].
  destruct (fault e (BlobUploadFromString _)); [by intros [= _ <-]|].
  destruct (fault e (BlobMakePublic _)); [by intros [= _ <-]|].
  destruct (fault e (BlobPublicUrl _)); [by intros [= _ <-]|].
  destruct (fault e (DocumentSet _)); [by intros [= _ <-]|done].
Qed.

(** A failing step makes the upload fail. *)
Lemma upload_file_step_fails e f w c msg :
  c ∈ upload_calls e f → fault e c = Some msg →
  ∃ msg', (upload_file e f w).1 = UploadFailure msg'.
Proof.
  intros Hc Hf.
  destruct (upload_file e f w) as [[msg'|md id] w'] eqn:Hup; [by eexists|].
  apply upload_file_success_inv in Hup as (_ & Hok & _).
  rewrite (Hok c Hc) in Hf. done.
Qed.

(** ** [get_all_files] *)

Lemma get_all_files_ok e w :
  fault e QueryStream = None →
  get_all_files e w
  = (with_id <$> order_by_descending "uploaded_at" (collection w),
     record_call QueryStream w).
Proof. intros Hok. unfold get_all_files, stream, store_call. by rewrite Hok. Qed.

Lemma get_all_files_error e w msg :
  fault e QueryStream = Some msg →
  get_all_files e w
  = ([], print ("Error retrieving files: " +:+ msg) (record_call QueryStream w)).
Proof. intros Hf. unfold get_all_files, stream, store_call. by rewrite Hf. Qed.

(** The listing depends on the catalog only. *)
Lemma get_all_files_same_collection e w1 w2 :
  collection w1 = collection w2 → (get_all_files e w1).1 = (get_all_files e w2).1.
Proof.
  intros Heq. unfold get_all_files, stream, store_call.
  destruct (fault e QueryStream); simpl; [done|]. by rewrite Heq.
Qed.

Lemma get_all_files_collection e w : collection (get_all_files e w).2 = collection w.
Proof.
  unfold get_all_files, stream, store_call. by destruct (fault e QueryStream).
Qed.

Lemma elem_of_get_all_files e w id d :
  fault e QueryStream = None →
  collection w !! id = Some d → is_Some (d !! "uploaded_at") →
  with_id (id, d) ∈ (get_all_files e w).1.
Proof.
  intros Hok Hd Hf. rewrite get_all_files_ok by done. simpl.
  apply list_elem_of_fmap. exists (id, d). split; [done|].
  by apply elem_of_order_by_descending.
Qed.

Lemma elem_of_get_all_files_inv e w d :
  d ∈ (get_all_files e w).1 →
  ∃ id d0, collection w !! id = Some d0 ∧ d = with_id (id, d0).
Proof.
  unfold get_all_files, stream, store_call.
  destruct (fault e QueryStream); simpl; [by intros ?%elem_of_nil|].
  intros Hin. apply list_elem_of_fmap in Hin as [[id d0] [-> Hin]].
  apply elem_of_order_by_descending in Hin as [Hd _]. by exists id, d0.
Qed.

(** After a successful upload the listing has the record, with the
    [storage_path] and [download_url] that were returned. *)
Lemma upload_then_listed e f w md id w' e' :
  upload_file e f w = (UploadSuccess md id, w') →
  fault e' QueryStream = None →
  with_id (id, md) ∈ (get_all_files e' w').1 ∧
  with_id (id, md) !! "storage_path" = md !! "storage_path" ∧
  with_id (id, md) !! "download_url" = md !! "download_url".
Proof.
  intros Hup Hok. apply upload_file_success_inv in Hup as (_ & _ & -> & -> & ->).
  split_and!; [|done..].
  apply elem_of_get_all_files; [done | apply lookup_insert_eq | by eexists].
Qed.

(** ** [delete_file] *)

Lemma delete_file_blob_fails e doc_id path w :
  bucket w !! path = None ∨ is_Some (fault e (BlobDelete path)) →
  ∃ msg, delete_file e doc_id path w
         = (DeleteFailure msg, record_call (BlobDelete path) w).
Proof.
  intros H. unfold delete_file, blob_delete, document_delete, store_call,
    mbind, M_bind.
  destruct (fault e (BlobDelete path)) as [msg|] eqn:Hf; [by eexists|].
  destruct H as [Habs | [? ?]]; [|done].
  simpl. rewrite Habs. by eexists.
Qed.

Lemma delete_file_ok e doc_id path w b :
  bucket w !! path = Some b →
  fault e (BlobDelete path) = None → fault e (DocumentDelete doc_id) = None →
  delete_file e doc_id path w
  = (DeleteSuccess "File deleted successfully",
     {| bucket := delete path (bucket w);
        collection := delete doc_id (collection w);
        calls := calls w ++ [BlobDelete path; DocumentDelete doc_id];
        stdout := stdout w |}).
Proof.
  intros Hb F1 F2. unfold delete_file, blob_delete, document_delete, store_call,
    mbind, M_bind.
  rewrite F1. simpl. rewrite Hb, F2. simpl.
  unfold record_call, set_collection, set_bucket; simpl. by rewrite <-app_assoc.
Qed.

(** ** [get_storage_stats] *)

Lemma py_sum_typed acc (files : list document) :
  Forall size_bytes_typed files →
  py_sum (NInt acc) ((λ f : document, default (VInt 0) (f !! "size_bytes")) <$> files)
  = Ok (NInt (acc + sum_size_bytes files)).
Proof.
  intros Hall. revert acc.
  induction Hall as [|f files Hf _ IH]; intros acc; simpl.
  { by rewrite Z.add_0_r. }
  unfold size_bytes_typed in Hf. unfold size_bytes_of.
  destruct (f !! "size_bytes") as [[]|]; try done; simpl; rewrite IH;
    do 2 f_equal; lia.
Qed.

(** A [size_bytes] that is not a number sends the statistics to the
    [except] branch. *)
Example stats_type_error :
  let w := {| bucket := ∅;
              collection := {[ "doc" := {[ "size_bytes" := VStr "5";
                                           "uploaded_at" := VTime (Ex.at_second 0) ]} ]};
              calls := []; stdout := [] |} in
  length (get_all_files (Ex.env_at 1 "x" Ex.no_fault) w).1 = 1%nat ∧
  fst <$> get_storage_stats (Ex.env_at 1 "x" Ex.no_fault) w
  = Some {| total_files := 0; total_size_bytes := 0; total_size_mb := 0 |}.
Proof. vm_compute. done. Qed.

(** * The catalog contract *)

(** ** C1: the recorded size *)




(** ** C3 and C10: the size gate *)





(** When the [size] attribute is the length of the content, the gate is
    the one on the content length. *)
Corollary upload_size_gate_content e f w :
  UploadedFile.size f = len (UploadedFile.getvalue f) →
  MAX_FILE_SIZE_BYTES < len (UploadedFile.getvalue f) →
  upload_file e f w = (UploadFailure file_too_large, w).
Proof. intros Hsz Hlen. apply upload_file_gate. by rewrite Hsz. Qed.

Lemma upload_file_first_call e f w :
  UploadedFile.size f ≤ MAX_FILE_SIZE_BYTES →
  ∃ rest, calls (upload_file e f w).2
          = calls w ++ BlobUploadFromString (storage_path e f) :: rest.
Proof.
  intros Hsz. unfold_upload e f.
  destruct (Z.ltb_spec MAX_FILE_SIZE_BYTES (UploadedFile.size f)); [lia|].
  destruct (fault e (BlobUploadFromString _)); simpl; [by exists []|].
  destruct (fault e (BlobMakePublic _)); simpl.
  { eexists [_]. by rewrite <-app_assoc. }
  destruct (fault e (BlobPublicUrl _)); simpl.
  { eexists [_; _]. by rewrite <-!app_assoc. }
  destruct (fault e (DocumentSet _)); simpl.
  all: eexists [_; _; _]; by rewrite <-!app_assoc.
Qed.

(** C10: the size gate is a strict inequality.  An input whose size is
    exactly [MAX_FILE_SIZE_BYTES] (10,485,760) passes the check and goes
    on to the store writes: the blob write is called, and the upload
    succeeds when no store call fails.  The gate, which answers without
    touching the stores, rejects exactly the sizes strictly greater than
    the limit. *)
Theorem size_gate_strict e f w :
  (UploadedFile.size f = MAX_FILE_SIZE_BYTES →
   UploadedFile.size f = 10485760 ∧
   (∃ rest, calls (upload_file e f w).2
            = calls w ++ BlobUploadFromString (storage_path e f) :: rest) ∧
   ((∀ c, c ∈ upload_calls e f → fault e c = None) →
    upload_file e f w
    = (UploadSuccess (upload_metadata e f) (auto_id e), uploaded_world e f w))) ∧
  (upload_file e f w = (UploadFailure file_too_large, w)
   ↔ MAX_FILE_SIZE_BYTES < UploadedFile.size f).
Proof.
  split.
  - intros Hsz. split_and!.
    + by rewrite Hsz.
    + apply upload_file_first_call. lia.
    + apply upload_file_ok. lia.
  - split; [|apply upload_file_gate].
    intros Hup. destruct (Z.lt_ge_cases MAX_FILE_SIZE_BYTES (UploadedFile.size f)) as [|Hle];
      [done|].
    destruct (upload_file_first_call e f w Hle) as [rest Hcalls].
    rewrite Hup in Hcalls. simpl in Hcalls.
    apply (f_equal length) in Hcalls. rewrite length_app in Hcalls. simpl in Hcalls. lia.
Qed.

Lemma size_gate_strict_witness :
  ∃ rest, calls (upload_file (Ex.env_at 0 "doc1" Ex.no_fault) Ex.at_limit Ex.empty_world).2
          = BlobUploadFromString "uploads/20240309_140500_limit.bin" :: rest.
Proof.
  refine (proj1 (proj2 (proj1 (size_gate_strict (Ex.env_at 0 "doc1" Ex.no_fault)
                                 Ex.at_limit Ex.empty_world) _))).
  vm_compute. reflexivity.
Defined.

(** ** C2: a failed upload leaves no record *)

(** C2: in [upload_file] the blob write comes strictly before the
    metadata insert (the store calls made are an initial part of: blob
    write, make public, URL, metadata insert), and if one of these steps
    fails the result is a failure and the catalog is as before, so that
    a subsequent listing is the one before the call and holds no record
    with the blob's [storage_path] unless one was there.  In particular,
    when the blob write and the two steps after it succeed and the
    metadata insert fails, the result is the failure with the insert's
    message, the blob is in the bucket, and no record was created. *)
Theorem upload_failure_no_record e f w :
  (∃ new, calls (upload_file e f w).2 = calls w ++ new ∧
          new `prefix_of` upload_calls e f) ∧
  (∀ c msg,
     c ∈ upload_calls e f → fault e c = Some msg →
     (∃ msg', (upload_file e f w).1 = UploadFailure msg') ∧
     collection (upload_file e f w).2 = collection w ∧
     (∀ e', (get_all_files e' (upload_file e f w).2).1 = (get_all_files e' w).1) ∧
     ((∀ id d, collection w !! id = Some d →
               d !! "storage_path" ≠ Some (VStr (storage_path e f))) →
      ∀ e' d, d ∈ (get_all_files e' (upload_file e f w).2).1 →
              d !! "storage_path" ≠ Some (VStr (storage_path e f))) ∧
     (UploadedFile.size f ≤ MAX_FILE_SIZE_BYTES →
      c = DocumentSet (auto_id e) →
      (∀ c', c' ∈ upload_calls e f → c' ≠ c → fault e c' = None) →
      (upload_file e f w).1 = UploadFailure msg ∧
      calls (upload_file e f w).2 = calls w ++ upload_calls e f ∧
      bucket (upload_file e f w).2 !! storage_path e f = Some (uploaded_blob f))).
Proof.
  split; [apply upload_file_calls|].
  intros c msg Hc Hf.
  destruct (upload_file_step_fails e f w c msg Hc Hf) as [msg' Hfail].
  assert (collection (upload_file e f w).2 = collection w) as Hcol.
  { destruct (upload_file e f w) as [r w'] eqn:Hup. simpl in *. subst r.
    by apply upload_file_failure_collection in Hup. }
  split_and!.
  - by exists msg'.
  - done.
  - intros e'. by apply get_all_files_same_collection.
  - intros Hfresh e' d Hin.
    apply elem_of_get_all_files_inv in Hin as (id & d0 & Hd0 & ->).
    rewrite Hcol in Hd0. unfold with_id. simpl.
    rewrite lookup_insert_ne by done. by apply (Hfresh id).
  - intros Hsz -> Hothers. clear Hfail Hcol. unfold_upload e f.
    destruct (Z.ltb_spec MAX_FILE_SIZE_BYTES (UploadedFile.size f)); [lia|].
    rewrite !Hothers by (first [done | in_upload_calls]).
    rewrite Hf. simpl. split_and!; [done | by rewrite <-!app_assoc |].
    by rewrite alter_insert_eq, lookup_insert_eq.
Qed.

Lemma upload_failure_no_record_witness :
  collection
    (upload_file (Ex.env_at 0 "doc1" (Ex.fails_on (DocumentSet "doc1") "503 unavailable"))
       Ex.a_txt Ex.empty_world).2 = ∅.
Proof.
  refine (proj1 (proj2 (proj2
    (upload_failure_no_record
       (Ex.env_at 0 "doc1" (Ex.fails_on (DocumentSet "doc1") "503 unavailable"))
       Ex.a_txt Ex.empty_world) (DocumentSet "doc1") "503 unavailable" _ _))).
  - in_upload_calls.
  - vm_compute. reflexivity.
Defined.

(** The scenario of C2 on a concrete input: the insert fails after the
    blob was written; the bucket holds the blob, the listing is empty. *)
Example upload_insert_fails :
  let e := Ex.env_at 0 "doc1" (Ex.fails_on (DocumentSet "doc1") "503 unavailable") in
  let r := upload_file e Ex.a_txt Ex.empty_world in
  r.1 = UploadFailure "503 unavailable" ∧
  data <$> bucket r.2 !! "uploads/20240309_140500_a.txt" = Some Ex.abcde ∧
  (get_all_files (Ex.env_at 1 "x" Ex.no_fault) r.2).1 = [].
Proof. vm_compute. done. Qed.

(** ** C8: the derived fields *)

(** C8, as stated, does not hold for the extension: [file_extension]
    is not always the final dot-segment of [original_name].
    [os.path.splitext] counts the leading dots of a name as part of its
    root, so for ".gitignore" the extension is empty although the
    final dot-segment is the whole name. *)
Lemma upload_extension_not_final_dot_segment :
  ¬ (∀ e f w md id w',
       upload_file e f w = (UploadSuccess md id, w') →
       md !! "file_extension"
       = Some (VStr (final_dot_segment (UploadedFile.name f)))).
Proof.
  intros H.
  pose proof (upload_file_ok (Ex.env_at 0 "doc1" Ex.no_fault) Ex.dotfile
                Ex.empty_world ltac:(vm_compute; done) ltac:(done)) as Hup.
  apply H in Hup. vm_compute in Hup. done.
Qed.

(** C8, amended: for every successful upload, the fields of the
    returned record are derived as follows: [stored_name] is the
    timestamp string of second precision, an underscore, then
    [original_name]; [storage_path] is "uploads/" followed by
    [stored_name]; [size_mb] is [size_bytes / 1_048_576] rounded to 2
    decimal places (a number of hundredths nearest to the quotient);
    [file_extension] is [os.path.splitext(original_name)[1]], which is
    the final dot-segment of [original_name] or empty, and is the final
    dot-segment whenever the name has no slash and does not begin with
    a dot.  For "a.txt" the extension is ".txt", and for 5 bytes
    [size_mb] is 0.0. *)
Theorem upload_derived_fields e f w md id w' :
  upload_file e f w = (UploadSuccess md id, w') →
  md !! "original_name" = Some (VStr (UploadedFile.name f)) ∧
  md !! "stored_name"
  = Some (VStr (Py.strftime (now_filename e) +:+ "_" +:+ UploadedFile.name f)) ∧
  md !! "storage_path"
  = Some (VStr ("uploads/" +:+ (Py.strftime (now_filename e) +:+ "_"
                                  +:+ UploadedFile.name f))) ∧
  (∃ n h, md !! "size_bytes" = Some (VInt n) ∧ md !! "size_mb" = Some (VFloat2 h) ∧
          h = Py.round_mb n ∧ Z.abs (100 * n - h * 1048576) ≤ 524288) ∧
  (∃ ext, md !! "file_extension" = Some (VStr ext) ∧
          ext = (Py.splitext (UploadedFile.name f)).2 ∧
          (ext = "" ∨ ext = final_dot_segment (UploadedFile.name f)) ∧
          (Py.rfind "/" (UploadedFile.name f) = -1 →
           String.get 0 (UploadedFile.name f) ≠ Some "."%char →
           ext = final_dot_segment (UploadedFile.name f))) ∧
  (UploadedFile.name f = "a.txt" → md !! "file_extension" = Some (VStr ".txt")) ∧
  (UploadedFile.size f = 5 → md !! "size_mb" = Some (VFloat2 0)).
Proof.
  intros Hup. apply upload_file_success_inv in Hup as (_ & _ & -> & _ & _).
  split_and!; try done.
  - exists (UploadedFile.size f), (Py.round_mb (UploadedFile.size f)).
    split_and!; try done. apply round_mb_nearest.
  - eexists. split_and!; [done | done | apply splitext_final_dot_segment |].
    apply splitext_plain_name.
  - intros Hn. unfold upload_metadata. by rewrite Hn.
  - intros Hn. unfold upload_metadata. by rewrite Hn.
Qed.

Lemma upload_derived_fields_witness :
  upload_metadata (Ex.env_at 0 "doc1" Ex.no_fault) Ex.a_txt !! "stored_name"
  = Some (VStr "20240309_140500_a.txt").
Proof.
  refine (proj1 (proj2 (upload_derived_fields (Ex.env_at 0 "doc1" Ex.no_fault) Ex.a_txt
                   Ex.empty_world
                   (upload_metadata (Ex.env_at 0 "doc1" Ex.no_fault) Ex.a_txt) "doc1"
                   (uploaded_world (Ex.env_at 0 "doc1" Ex.no_fault) Ex.a_txt
                      Ex.empty_world) _))).
  vm_compute. reflexivity.
Defined.

(** Scenario A: a 5-byte file named "a.txt" of type "text/plain". *)
Example scenario_a :
  ∃ md w', upload_file (Ex.env_at 0 "doc1" Ex.no_fault) Ex.a_txt Ex.empty_world
           = (UploadSuccess md "doc1", w') ∧
    md !! "size_bytes" = Some (VInt 5) ∧ md !! "size_mb" = Some (VFloat2 0) ∧
    md !! "file_extension" = Some (VStr ".txt") ∧
    md !! "mime_type" = Some (VStr "text/plain") ∧
    md !! "storage_path" = Some (VStr "uploads/20240309_140500_a.txt").
Proof. do 2 eexists. vm_compute. done. Qed.

(** ** C4: a failed blob deletion keeps the record *)

(** C4: in [delete_file], if the blob deletion fails (the blob at
    [storage_path] is absent, or the store call fails), the operation
    returns a failure, the only store call made is the blob deletion,
    and the catalog is as before: the record with the given id is not
    deleted and still appears in a subsequent listing. *)
Theorem delete_blob_failure_keeps_record e doc_id path w :
  bucket w !! path = None ∨ is_Some (fault e (BlobDelete path)) →
  (∃ msg, (delete_file e doc_id path w).1 = DeleteFailure msg) ∧
  calls (delete_file e doc_id path w).2 = calls w ++ [BlobDelete path] ∧
  collection (delete_file e doc_id path w).2 = collection w ∧
  (∀ e', (get_all_files e' (delete_file e doc_id path w).2).1
         = (get_all_files e' w).1) ∧
  (∀ e' d, collection w !! doc_id = Some d → is_Some (d !! "uploaded_at") →
           fault e' QueryStream = None →
           with_id (doc_id, d) ∈ (get_all_files e' (delete_file e doc_id path w).2).1).
Proof.
  intros H. destruct (delete_file_blob_fails e doc_id path w H) as [msg ->]. simpl.
  split_and!; [by exists msg | done | done | |].
  - intros e'. by apply get_all_files_same_collection.
  - intros e' d Hd Hf Hok. by apply elem_of_get_all_files.
Qed.

Lemma delete_blob_failure_keeps_record_witness :
  collection
    (delete_file (Ex.env_at 1 "x" Ex.no_fault) "doc1" "uploads/gone.txt"
       (upload_file (Ex.env_at 0 "doc1" Ex.no_fault) Ex.a_txt Ex.empty_world).2).2
  = collection (upload_file (Ex.env_at 0 "doc1" Ex.no_fault) Ex.a_txt Ex.empty_world).2.
Proof.
  refine (proj1 (proj2 (proj2
    (delete_blob_failure_keeps_record (Ex.env_at 1 "x" Ex.no_fault) "doc1"
       "uploads/gone.txt"
       (upload_file (Ex.env_at 0 "doc1" Ex.no_fault) Ex.a_txt Ex.empty_world).2 _)))).
  left. vm_compute. reflexivity.
Defined.

(** Scenario D: deleting with a [storage_path] that is not in the
    bucket fails, and the record stays in the listing. *)
Example scenario_d :
  let w := (upload_file (Ex.env_at 0 "doc1" Ex.no_fault) Ex.a_txt Ex.empty_world).2 in
  let r := delete_file (Ex.env_at 1 "x" Ex.no_fault) "doc1" "uploads/gone.txt" w in
  r.1 = DeleteFailure "404 No such object: uploads/gone.txt" ∧
  (λ d : document, d !! "id") <$> (get_all_files (Ex.env_at 2 "y" Ex.no_fault) r.2).1
  = [Some (VStr "doc1")].
Proof. vm_compute. done. Qed.

(** A successful deletion removes both the blob and the record. *)
Example delete_removes_both :
  let w := (upload_file (Ex.env_at 0 "doc1" Ex.no_fault) Ex.a_txt Ex.empty_world).2 in
  let r := delete_file (Ex.env_at 1 "x" Ex.no_fault) "doc1"
             "uploads/20240309_140500_a.txt" w in
  r.1 = DeleteSuccess "File deleted successfully" ∧
  bucket r.2 = ∅ ∧
  (get_all_files (Ex.env_at 2 "y" Ex.no_fault) r.2).1 = [].
Proof. vm_compute. done. Qed.

(** ** C7: a failed listing is an empty listing *)

(** C7: on a backend error during listing, [get_all_files] returns the
    empty list instead of raising, whatever the catalog holds; this is
    also what it returns for an empty catalog, so the caller cannot
    tell the two apart from the result. *)
Theorem listing_error_is_empty e w msg :
  fault e QueryStream = Some msg →
  (get_all_files e w).1 = [] ∧
  (∀ e0 w0, collection w0 = ∅ → (get_all_files e0 w0).1 = (get_all_files e w).1).
Proof.
  intros Hf. rewrite (get_all_files_error e w msg Hf). simpl. split; [done|].
  intros e0 w0 Hempty. unfold get_all_files, stream, store_call.
  destruct (fault e0 QueryStream); simpl; [done|].
  rewrite Hempty. done.
Qed.

Lemma listing_error_is_empty_witness :
  (get_all_files (Ex.env_at 1 "x" (Ex.fails_on QueryStream "503 unavailable"))
     (upload_file (Ex.env_at 0 "doc1" Ex.no_fault) Ex.a_txt Ex.empty_world).2).1 = [].
Proof.
  refine (proj1 (listing_error_is_empty
                   (Ex.env_at 1 "x" (Ex.fails_on QueryStream "503 unavailable"))
                   (upload_file (Ex.env_at 0 "doc1" Ex.no_fault) Ex.a_txt
                      Ex.empty_world).2 "503 unavailable" _)).
  vm_compute. reflexivity.
Defined.

(** ** C5: the statistics are a fold of the listing *)

(** C5: for every catalog state (with [size_bytes] an integer or
    absent in each listed record), [get_storage_stats] is the fold of
    what [get_all_files] returns: [total_files] is the number of
    records listed, [total_size_bytes] the sum of their [size_bytes]
    with an absent one counted as 0, and, for a sum below 2^53 in
    absolute value, [total_size_mb] that sum divided by 1_048_576 and
    rounded to 2 decimal places.  When the listing is empty, and so
    when the backend fails, the three are zero. *)
Theorem stats_fold_of_listing e w :
  Forall size_bytes_typed (get_all_files e w).1 →
  ∃ s,
    get_storage_stats e w = Some (s, (get_all_files e w).2) ∧
    total_files s = Z.of_nat (length (get_all_files e w).1) ∧
    total_size_bytes s = sum_size_bytes (get_all_files e w).1 ∧
    (Z.abs (sum_size_bytes (get_all_files e w).1) < 2 ^ 53 →
     total_size_mb s = Py.round_mb (sum_size_bytes (get_all_files e w).1) ∧
     Z.abs (100 * sum_size_bytes (get_all_files e w).1
            - total_size_mb s * 1048576) ≤ 524288) ∧
    ((get_all_files e w).1 = [] →
     s = {| total_files := 0; total_size_bytes := 0; total_size_mb := 0 |}) ∧
    (is_Some (fault e QueryStream) →
     s = {| total_files := 0; total_size_bytes := 0; total_size_mb := 0 |}).
Proof.
  intros Htyped.
  assert (get_storage_stats e w
    = Some ({| total_files := Z.of_nat (length (get_all_files e w).1);
               total_size_bytes := sum_size_bytes (get_all_files e w).1;
               total_size_mb := Py.round_mb (sum_size_bytes (get_all_files e w).1) |},
            (get_all_files e w).2)) as Heq.
  { unfold get_storage_stats. destruct (get_all_files e w) as [files w']. simpl in *.
    by rewrite (py_sum_typed 0 files Htyped). }
  eexists. split; [exact Heq|]. simpl.
  split_and!; [done | done | | |].
  - intros _. split; [done | apply round_mb_nearest].
  - intros Hnil. by rewrite Hnil.
  - intros [msg Hf]. by rewrite (get_all_files_error e w msg Hf).
Qed.

Lemma stats_fold_of_listing_witness :
  ∃ s,
    fst <$> get_storage_stats (Ex.env_at 1 "x" Ex.no_fault)
              (upload_file (Ex.env_at 0 "doc1" Ex.no_fault) Ex.a_txt Ex.empty_world).2
    = Some s ∧
    total_files s = 1 ∧ total_size_bytes s = 5 ∧ total_size_mb s = 0.
Proof.
  assert (Forall size_bytes_typed
            (get_all_files (Ex.env_at 1 "x" Ex.no_fault)
               (upload_file (Ex.env_at 0 "doc1" Ex.no_fault) Ex.a_txt
                  Ex.empty_world).2).1) as Htyped.
  { apply (bool_decide_unpack _). vm_compute. exact I. }
  destruct (stats_fold_of_listing _ _ Htyped) as (s & Heq & Hn & Hsum & Hmb & _).
  exists s. rewrite Heq. split_and!; [done | exact Hn | exact Hsum |].
  apply Hmb. vm_compute. reflexivity.
Defined.

(** A failed listing gives all-zero statistics. *)
Example stats_on_listing_error :
  fst <$> get_storage_stats (Ex.env_at 1 "x" (Ex.fails_on QueryStream "503 unavailable"))
            (upload_file (Ex.env_at 0 "doc1" Ex.no_fault) Ex.a_txt Ex.empty_world).2
  = Some {| total_files := 0; total_size_bytes := 0; total_size_mb := 0 |}.
Proof. vm_compute. done. Qed.

(** A record without [size_bytes] counts for 0 bytes. *)
Example stats_absent_size :
  let w := {| bucket := ∅;
              collection :=
                {[ "doc1" := {[ "uploaded_at" := VTime (Ex.at_second 0) ]};
                   "doc2" := {[ "uploaded_at" := VTime (Ex.at_second 1);
                                "size_bytes" := VInt 2097152 ]} ]};
              calls := []; stdout := [] |} in
  fst <$> get_storage_stats (Ex.env_at 2 "x" Ex.no_fault) w
  = Some {| total_files := 2; total_size_bytes := 2097152; total_size_mb := 200 |}.
Proof. vm_compute. done. Qed.

(** ** C6: the listing is newest first *)

Lemma uploads_success reqs w :
  Forall is_success (uploads reqs w).1 →
  (uploads reqs w).1
  = (λ req, UploadSuccess (upload_metadata req.1 req.2) (auto_id req.1)) <$> reqs ∧
  collection (uploads reqs w).2
  = foldl (λ m en, <[en.1 := en.2]> m) (collection w) (entry_of <$> reqs).
Proof.
  revert w. induction reqs as [|[e f] reqs IH]; intros w; simpl; [done|].
  destruct (upload_file e f w) as [r w1] eqn:Hup.
  destruct (uploads reqs w1) as [rs w2] eqn:Hrest. simpl.
  intros Hall. apply Forall_cons in Hall as [Hr Hrs].
  destruct r as [|md id]; [done|].
  apply upload_file_success_inv in Hup as (_ & _ & -> & -> & ->).
  specialize (IH (uploaded_world e f w)). rewrite Hrest in IH. simpl in IH.
  destruct (IH Hrs) as [-> ->]. done.
Qed.

Lemma foldl_insert_list_to_map {A} (l : list (string * A)) :
  NoDup (l.*1) →
  foldl (λ (m : gmap string A) en, <[en.1 := en.2]> m) ∅ l = list_to_map l.
Proof.
  induction l as [|[k a] l IH] using rev_ind; [done|].
  rewrite fmap_app. simpl. intros Hnd. apply NoDup_app in Hnd as (Hl & Hk & _).
  rewrite foldl_snoc, IH by done. simpl.
  rewrite list_to_map_snoc; [done|].
  intros Hin. apply (Hk k Hin). apply list_elem_of_here.
Qed.

Lemma foldl_insert_lookup {A} (l : list (string * A)) (m0 : gmap string A) k a :
  NoDup (l.*1) → (k, a) ∈ l →
  foldl (λ (m : gmap string A) en, <[en.1 := en.2]> m) m0 l !! k = Some a.
Proof.
  induction l as [|[k' a'] l IH] using rev_ind; [by intros _ ?%elem_of_nil|].
  rewrite fmap_app, foldl_snoc. simpl.
  intros Hnd Hin. apply NoDup_app in Hnd as (Hl & Hk & _).
  apply elem_of_app in Hin as [Hin | Hin].
  - rewrite lookup_insert_ne; [by apply IH|].
    intros ->. apply (Hk k); [|apply list_elem_of_here].
    apply list_elem_of_fmap. by exists (k, a).
  - apply list_elem_of_singleton in Hin as [= -> ->]. apply lookup_insert_eq.
Qed.

(** A sorted list without repetition whose elements all occur in
    another sorted list occurs in it as a sublist. *)
Lemma sorted_sublist {A} `{!EqDecision A} (R : relation A) (l L : list A) :
  StronglySorted R L → StronglySorted R l → NoDup l →
  (∀ x, x ∈ l → x ∈ L) →
  (∀ x y, x ∈ l → y ∈ L → R x y → R y x → x = y) →
  l `sublist_of` L.
Proof.
  intros HL. revert l. induction HL as [|y L' HL' IH Hy]; intros l Hl Hnd Hin Hanti.
  { destruct l as [|x l]; [done|].
    specialize (Hin x (list_elem_of_here _ _)). by apply elem_of_nil in Hin. }
  destruct l as [|x l']; [apply sublist_nil_l|].
  apply StronglySorted_inv in Hl as [Hl' Hx].
  apply NoDup_cons in Hnd as [Hxl' Hnd'].
  rewrite Forall_forall in Hx, Hy.
  destruct (decide (x = y)) as [-> | Hne].
  - apply sublist_skip, IH; [done | done | |].
    + intros z Hz. specialize (Hin z (list_elem_of_further _ _ _ Hz)).
      apply elem_of_cons in Hin as [-> | Hin]; done.
    + intros z1 z2 Hz1 Hz2. apply Hanti; by apply list_elem_of_further.
  - apply sublist_cons, IH; [by constructor; [|apply Forall_forall] | by constructor | |].
    + intros z Hz. specialize (Hin z Hz) as Hz'.
      apply elem_of_cons in Hz' as [-> | Hz']; [|done].
      apply elem_of_cons in Hz as [-> | Hz]; [done|].
      assert (x ∈ L') as HxL.
      { specialize (Hin x (list_elem_of_here _ _)).
        apply elem_of_cons in Hin as [-> | Hin]; done. }
      destruct Hne. apply Hanti; [apply list_elem_of_here.. | by apply Hx | by apply Hy].
    + intros z1 z2 Hz1 Hz2. apply Hanti; [done | by apply list_elem_of_further].
Qed.

Lemma upload_metadata_uploaded_at e f :
  upload_metadata e f !! "uploaded_at" = Some (VTime (now_uploaded_at e)).
Proof. done. Qed.

Lemma upload_metadata_well_formed e f : well_formed (upload_metadata e f).
Proof. split; eexists; done. Qed.

Lemma field_key_entry_of req :
  field_key "uploaded_at" (entry_of req).2 = 3 :: Py.fields (now_uploaded_at req.1).
Proof. done. Qed.

(** Later uploads come first in the order of the query. *)
Lemma entry_of_descending a b :
  datetime_lt (now_uploaded_at a.1) (now_uploaded_at b.1) →
  descending "uploaded_at" (entry_of b) (entry_of a).
Proof.
  unfold datetime_lt, descending, entry_compare. intros Hlt.
  rewrite !field_key_entry_of, lex_compare_cons.
  rewrite (lex_compare_antisym (Py.fields (now_uploaded_at a.1))), Hlt. done.
Qed.

Lemma reverse_entries_sorted reqs :
  increasing_times reqs →
  StronglySorted (descending "uploaded_at") (reverse (entry_of <$> reqs)).
Proof.
  intros Hinc. apply Sorted_StronglySorted; [apply _|].
  rewrite <-fmap_reverse.
  apply (Sorted_fmap entry_of
           (flip (λ a b, datetime_lt (now_uploaded_at a.1) (now_uploaded_at b.1)))).
  - intros x y Hxy. by apply entry_of_descending.
  - by apply Sorted_reverse.
Qed.

(** The query on the catalog a run of successful uploads builds. *)
Lemma order_by_descending_uploads reqs :
  increasing_times reqs →
  NoDup ((λ req, auto_id req.1) <$> reqs) →
  order_by_descending "uploaded_at" (list_to_map (entry_of <$> reqs))
  = reverse (entry_of <$> reqs).
Proof.
  intros Hinc Hnd.
  assert (NoDup ((entry_of <$> reqs).*1)) as Hnd'.
  { by rewrite <-list_fmap_compose. }
  assert (order_by_descending "uploaded_at" (list_to_map (entry_of <$> reqs))
          ≡ₚ reverse (entry_of <$> reqs)) as Hperm.
  { rewrite order_by_descending_all, reverse_Permutation.
    - by apply map_to_list_to_map.
    - intros id d Hd. apply elem_of_list_to_map in Hd; [|done].
      apply list_elem_of_fmap in Hd as [[e f] [[= -> ->] _]].
      by rewrite upload_metadata_uploaded_at. }
  apply (StronglySorted_unique_strong (descending "uploaded_at")); [| | |done].
  - intros [id1 d1] [id2 d2] H1 H2 R12 R21.
    assert (entry_compare "uploaded_at" (id1, d1) (id2, d2) = Eq) as Heq.
    { unfold descending in R12, R21.
      rewrite (entry_compare_antisym _ (id1, d1)) in R21.
      by destruct (entry_compare "uploaded_at" (id1, d1) (id2, d2)). }
    apply entry_compare_eq in Heq as [_ Hid]. simpl in Hid. subst id2.
    rewrite Hperm in H1. rewrite reverse_Permutation in H1, H2.
    apply (elem_of_list_to_map (M := gmap string)) in H1, H2; try done.
    rewrite H1 in H2. by injection H2 as ->.
  - apply order_by_descending_sorted.
  - by apply reverse_entries_sorted.
Qed.

(** On any catalog to which a run of successful uploads was added,
    the query yields these uploads latest first, among the rest. *)
Lemma order_by_descending_uploads_sublist reqs (m0 : gmap string document) :
  increasing_times reqs →
  NoDup ((λ req, auto_id req.1) <$> reqs) →
  reverse (entry_of <$> reqs)
    `sublist_of`
  order_by_descending "uploaded_at"
    (foldl (λ m en, <[en.1 := en.2]> m) m0 (entry_of <$> reqs)).
Proof.
  intros Hinc Hnd.
  assert (NoDup ((entry_of <$> reqs).*1)) as Hnd'.
  { by rewrite <-list_fmap_compose. }
  assert (∀ id d, (id, d) ∈ reverse (entry_of <$> reqs) →
            foldl (λ m en, <[en.1 := en.2]> m) m0 (entry_of <$> reqs) !! id = Some d)
    as Hlookup.
  { intros id d Hin. rewrite elem_of_reverse in Hin.
    by apply foldl_insert_lookup. }
  apply (sorted_sublist (descending "uploaded_at")).
  - apply order_by_descending_sorted.
  - by apply reverse_entries_sorted.
  - rewrite reverse_Permutation. by apply (NoDup_fmap_1 fst).
  - intros [id d] Hin. apply elem_of_order_by_descending. split; [by apply Hlookup|].
    rewrite elem_of_reverse in Hin.
    apply list_elem_of_fmap in Hin as [[e f] [[= -> ->] _]].
    by rewrite upload_metadata_uploaded_at.
  - intros [id1 d1] [id2 d2] H1 H2 R12 R21.
    assert (entry_compare "uploaded_at" (id1, d1) (id2, d2) = Eq) as Heq.
    { unfold descending in R12, R21.
      rewrite (entry_compare_antisym _ (id1, d1)) in R21.
      by destruct (entry_compare "uploaded_at" (id1, d1) (id2, d2)). }
    apply entry_compare_eq in Heq as [_ Hid]. simpl in Hid. subst id2.
    apply Hlookup in H1. apply elem_of_order_by_descending in H2 as [H2 _].
    rewrite H1 in H2. by injection H2 as ->.
Qed.

(** C6: [get_all_files] returns every record of the catalog (each
    document once, with its id), ordered by [uploaded_at] descending,
    most recent first; and after any run of N successful uploads with
    strictly increasing upload times (and the distinct ids the store
    assigns), the listing has these uploads in reverse chronological
    order: as a sublist whatever the catalog held before, and as the
    whole listing when it was empty. *)
Theorem listing_newest_first :
  (∀ e w,
     fault e QueryStream = None →
     map_Forall (λ _ d, is_Some (d !! "uploaded_at")) (collection w) →
     (get_all_files e w).1 ≡ₚ with_id <$> map_to_list (collection w) ∧
     StronglySorted uploaded_at_desc (get_all_files e w).1) ∧
  (∀ reqs w e,
     Forall is_success (uploads reqs w).1 →
     increasing_times reqs →
     NoDup ((λ req, auto_id req.1) <$> reqs) →
     fault e QueryStream = None →
     reverse (listed <$> (uploads reqs w).1)
       `sublist_of` (get_all_files e (uploads reqs w).2).1 ∧
     (collection w = ∅ →
      (get_all_files e (uploads reqs w).2).1
      = reverse (listed <$> (uploads reqs w).1))).
Proof.
  split.
  - intros e w Hok Hall. rewrite get_all_files_ok by done. simpl. split.
    + by rewrite order_by_descending_all.
    + apply (StronglySorted_fmap with_id (descending "uploaded_at")).
      * apply descending_uploaded_at.
      * apply order_by_descending_sorted.
  - intros reqs w e Hsucc Hinc Hnd Hok.
    destruct (uploads_success reqs w Hsucc) as [Hres Hcol].
    rewrite get_all_files_ok by done. simpl.
    assert (reverse (listed <$> (uploads reqs w).1)
            = with_id <$> reverse (entry_of <$> reqs)) as ->.
    { rewrite Hres, fmap_reverse, <-!list_fmap_compose. done. }
    rewrite Hcol. split.
    + apply fmap_sublist. by apply order_by_descending_uploads_sublist.
    + intros Hempty.
      rewrite Hempty, foldl_insert_list_to_map by (by rewrite <-list_fmap_compose).
      by rewrite order_by_descending_uploads.
Qed.

Lemma listing_newest_first_witness :
  StronglySorted uploaded_at_desc
    (get_all_files (Ex.env_at 9 "x" Ex.no_fault)
       (uploads Ex.three_uploads Ex.empty_world).2).1 ∧
  (get_all_files (Ex.env_at 9 "x" Ex.no_fault)
     (uploads Ex.three_uploads Ex.empty_world).2).1
  = reverse (listed <$> (uploads Ex.three_uploads Ex.empty_world).1).
Proof.
  split.
  - refine (proj2 (proj1 listing_newest_first (Ex.env_at 9 "x" Ex.no_fault)
                     (uploads Ex.three_uploads Ex.empty_world).2 _ _)).
    + vm_compute. reflexivity.
    + apply (bool_decide_unpack _). vm_compute. exact I.
  - refine (proj2 (proj2 listing_newest_first Ex.three_uploads Ex.empty_world
                     (Ex.env_at 9 "x" Ex.no_fault) _ _ _ _) _).
    + apply (bool_decide_unpack _). vm_compute. exact I.
    + apply (bool_decide_unpack _). vm_compute. exact I.
    + apply (bool_decide_unpack _). vm_compute. exact I.
    + vm_compute. reflexivity.
    + vm_compute. reflexivity.
Defined.

(** Scenario C: three uploads at times T1 < T2 < T3 are listed in the
    order T3, T2, T1. *)
Example scenario_c :
  (λ d : document, d !! "original_name")
    <$> (get_all_files (Ex.env_at 9 "x" Ex.no_fault)
           (uploads Ex.three_uploads Ex.empty_world).2).1
  = [Some (VStr "three.txt"); Some (VStr "two.txt"); Some (VStr "one.txt")].
Proof. vm_compute. done. Qed.

(** Records with the same upload time are listed by id, greatest first. *)
Example listing_ties :
  (λ d : document, d !! "id")
    <$> (get_all_files (Ex.env_at 9 "x" Ex.no_fault)
           (uploads [(Ex.env_at 1 "p" Ex.no_fault, Ex.named "one.txt");
                     (Ex.env_at 1 "r" Ex.no_fault, Ex.named "two.txt");
                     (Ex.env_at 1 "q" Ex.no_fault, Ex.named "three.txt")]
              Ex.empty_world).2).1
  = [Some (VStr "r"); Some (VStr "q"); Some (VStr "p")].
Proof. vm_compute. done. Qed.

(** ** The catalog the service builds *)

Lemma delete_file_collection e doc_id path w :
  collection (delete_file e doc_id path w).2 = collection w ∨
  collection (delete_file e doc_id path w).2 = delete doc_id (collection w).
Proof.
  unfold delete_file, blob_delete, document_delete, store_call, mbind, M_bind.
  destruct (fault e (BlobDelete path)); simpl; [by left|].
  destruct (bucket w !! path); simpl; [|by left].
  destruct (fault e (DocumentDelete doc_id)); simpl; [by left | by right].
Qed.

Lemma get_storage_stats_collection e w s w' :
  get_storage_stats e w = Some (s, w') → collection w' = collection w.
Proof.
  unfold get_storage_stats.
  pose proof (get_all_files_collection e w) as Hcol.
  destruct (get_all_files e w) as [files w1]. simpl in Hcol.
  destruct (py_sum _ _) as [[total|]|msg]; [|done|]; by intros [= _ <-].
Qed.

(** Every document of a catalog that the service alone has written has
    an integer [size_bytes] and a timestamp [uploaded_at]. *)
Lemma reachable_well_formed w :
  reachable w → map_Forall (λ _, well_formed) (collection w).
Proof.
  induction 1 as [w Hempty | e f w _ IH | e doc_id path w _ IH | e w _ IH
                 | e w s w' _ IH Hstats].
  - rewrite Hempty. apply map_Forall_empty.
  - destruct (upload_file e f w) as [[msg|md id] w'] eqn:Hup; simpl.
    + by rewrite (upload_file_failure_collection _ _ _ _ _ Hup).
    + apply upload_file_success_inv in Hup as (_ & _ & _ & _ & ->). simpl.
      apply map_Forall_insert_2; [apply upload_metadata_well_formed | done].
  - destruct (delete_file_collection e doc_id path w) as [-> | ->]; [done|].
    by apply map_Forall_delete.
  - by rewrite get_all_files_collection.
  - by rewrite (get_storage_stats_collection _ _ _ _ Hstats).
Qed.

(** So the conditions under which the listing and the statistics are
    described hold of every such catalog. *)
Lemma reachable_listing_typed e w :
  reachable w →
  map_Forall (λ _ d, is_Some (d !! "uploaded_at")) (collection w) ∧
  Forall size_bytes_typed (get_all_files e w).1.
Proof.
  intros Hreach. pose proof (reachable_well_formed w Hreach) as Hwf. split.
  - intros id d Hd. destruct (Hwf id d Hd) as [_ [t ->]]. by eexists.
  - unfold get_all_files, stream, store_call.
    destruct (fault e QueryStream); simpl; [constructor|].
    apply Forall_fmap, Forall_forall. intros [id d] Hin.
    apply elem_of_order_by_descending in Hin as [Hd _].
    destruct (Hwf id d Hd) as [[n Hn] _].
    unfold size_bytes_typed, with_id. simpl.
    rewrite lookup_insert_ne by done. by rewrite Hn.
Qed.

(** ** C9: the bootstrap *)

Lemma initialize_firebase_noop cert q :
  FirebaseConfig._initialized q = true →
  FirebaseConfig.initialize_firebase cert q = (Ok (), q).
Proof. intros H. unfold FirebaseConfig.initialize_firebase. by rewrite H. Qed.

Lemma initialize_firebase_sets_flag cert p p' :
  FirebaseConfig.initialize_firebase cert p = (Ok (), p') →
  FirebaseConfig._initialized p' = true.
Proof.
  unfold FirebaseConfig.initialize_firebase.
  destruct (FirebaseConfig._initialized p) eqn:Hinit; [by intros [= <-]|].
  destruct (FirebaseConfig.falsy _ || FirebaseConfig.falsy _); [done|].
  destruct (cert _); [done|].
  destruct (FirebaseConfig.default_app p); [done|].
  by intros [= <-].
Qed.

(** An empty value counts as a missing one. *)
Lemma initialize_firebase_empty_value cert p :
  FirebaseConfig._initialized p = false →
  FirebaseConfig.environ p !! "FIREBASE_CREDENTIALS_PATH" = Some "" ∨
  FirebaseConfig.environ p !! "FIREBASE_STORAGE_BUCKET" = Some "" →
  (FirebaseConfig.initialize_firebase cert p).1
  = Raise FirebaseConfig.missing_configuration.
Proof.
  intros Hinit Hempty. unfold FirebaseConfig.initialize_firebase. rewrite Hinit.
  destruct Hempty as [-> | ->]; simpl; [done|].
  by rewrite orb_true_r.
Qed.

(** C9: [initialize_firebase], while the module is not initialized,
    fails with the configuration error when the credentials path or the
    storage bucket is absent from the environment, before it touches the
    Firebase SDK (no app is created, the flag stays unset); a successful
    call sets the flag, and with the flag set every call is a no-op: it
    returns normally and changes nothing, whatever the environment then
    holds. *)
Theorem initialize_firebase_contract cert p :
  (FirebaseConfig._initialized p = false →
   FirebaseConfig.environ p !! "FIREBASE_CREDENTIALS_PATH" = None ∨
   FirebaseConfig.environ p !! "FIREBASE_STORAGE_BUCKET" = None →
   (FirebaseConfig.initialize_firebase cert p).1
   = Raise FirebaseConfig.missing_configuration ∧
   FirebaseConfig._initialized (FirebaseConfig.initialize_firebase cert p).2 = false ∧
   FirebaseConfig.default_app (FirebaseConfig.initialize_firebase cert p).2
   = FirebaseConfig.default_app p) ∧
  (∀ p', FirebaseConfig.initialize_firebase cert p = (Ok (), p') →
     FirebaseConfig._initialized p' = true ∧
     (∀ cert', FirebaseConfig.initialize_firebase cert' p' = (Ok (), p')) ∧
     (∀ cert' n,
        Nat.iter n (λ q, (FirebaseConfig.initialize_firebase cert' q).2) p' = p')) ∧
  (∀ cert' q, FirebaseConfig._initialized q = true →
     FirebaseConfig.initialize_firebase cert' q = (Ok (), q)).
Proof.
  split_and!.
  - intros Hinit Habsent. unfold FirebaseConfig.initialize_firebase. rewrite Hinit.
    destruct Habsent as [-> | ->]; simpl; [done|].
    by rewrite orb_true_r.
  - intros p' Hok. pose proof (initialize_firebase_sets_flag cert p p' Hok) as Hflag.
    split_and!; [done | |].
    + intros cert'. by apply initialize_firebase_noop.
    + intros cert' n. induction n as [|n IH]; simpl; [done|].
      by rewrite IH, initialize_firebase_noop.
  - intros cert' q. apply initialize_firebase_noop.
Qed.

Lemma initialize_firebase_contract_witness :
  (FirebaseConfig.initialize_firebase (λ _, None)
     (FirebaseConfig.start {[ "FIREBASE_CREDENTIALS_PATH" := "key.json" ]})).1
  = Raise FirebaseConfig.missing_configuration ∧
  FirebaseConfig._initialized
    (FirebaseConfig.initialize_firebase (λ _, None)
       (FirebaseConfig.start {[ "FIREBASE_CREDENTIALS_PATH" := "key.json";
                                "FIREBASE_STORAGE_BUCKET" := "mini-cloud" ]})).2
  = true.
Proof.
  split.
  - refine (proj1 (proj1 (initialize_firebase_contract (λ _, None)
              (FirebaseConfig.start {[ "FIREBASE_CREDENTIALS_PATH" := "key.json" ]}))
              _ _)).
    + vm_compute. reflexivity.
    + right. vm_compute. reflexivity.
  - refine (proj1 (proj1 (proj2 (initialize_firebase_contract (λ _, None)
              (FirebaseConfig.start {[ "FIREBASE_CREDENTIALS_PATH" := "key.json";
                                       "FIREBASE_STORAGE_BUCKET" := "mini-cloud" ]})))
              _ _)).
    vm_compute. reflexivity.
Defined.

(** A first call that succeeds, then a second call. *)
Example initialize_twice :
  let p := FirebaseConfig.start {[ "FIREBASE_CREDENTIALS_PATH" := "key.json";
                                   "FIREBASE_STORAGE_BUCKET" := "mini-cloud" ]} in
  let r1 := FirebaseConfig.initialize_firebase (λ _, None) p in
  let r2 := FirebaseConfig.initialize_firebase (λ _, Some "no such file") r1.2 in
  r1.1 = Ok () ∧
  FirebaseConfig.default_app r1.2 = Some ("key.json", "mini-cloud") ∧
  r2 = (Ok (), r1.2).
Proof. vm_compute. done. Qed.

(** A certificate that cannot be read fails the initialization too. *)
Example initialize_bad_certificate :
  let p := FirebaseConfig.start {[ "FIREBASE_CREDENTIALS_PATH" := "key.json";
                                   "FIREBASE_STORAGE_BUCKET" := "mini-cloud" ]} in
  let r := FirebaseConfig.initialize_firebase (λ _, Some "no such file") p in
  r.1 = Raise "no such file" ∧ FirebaseConfig._initialized r.2 = false.
Proof. vm_compute. done. Qed.

(** * Beyond the contract *)

(** ** The bootstrap and the store handles *)

Lemma falsy_false s : FirebaseConfig.falsy s = false ↔ ∃ v, s = Some v ∧ v ≠ "".
Proof.
  destruct s as [v|]; simpl.
  - rewrite bool_decide_eq_false. split; [by exists v | by intros (? & [= <-] & ?)].
  - split; [done | by intros (? & ? & _)].
Qed.

(** What [initialize_firebase] does on a process that is not
    initialized and has no default app. *)
Lemma initialize_firebase_fresh cert p :
  FirebaseConfig._initialized p = false → FirebaseConfig.default_app p = None →
  (∃ c b, configured p c b ∧ cert c = None ∧
     FirebaseConfig.initialize_firebase cert p
     = (Ok (), {| FirebaseConfig.environ := FirebaseConfig.environ p;
                  FirebaseConfig._initialized := true;
                  FirebaseConfig.default_app := Some (c, b);
                  FirebaseConfig.printed :=
                    FirebaseConfig.printed p ++ [initialized_line] |})) ∨
  (∃ msg, (FirebaseConfig.initialize_firebase cert p).1 = Raise msg ∧
     FirebaseConfig._initialized (FirebaseConfig.initialize_firebase cert p).2 = false ∧
     FirebaseConfig.default_app (FirebaseConfig.initialize_firebase cert p).2 = None ∧
     ¬ (∃ c b, configured p c b ∧ cert c = None)).
Proof.
  intros Hflag Happ. unfold FirebaseConfig.initialize_firebase. rewrite Hflag, Happ.
  destruct (FirebaseConfig.falsy (FirebaseConfig.environ p !! "FIREBASE_CREDENTIALS_PATH"))
    eqn:Hc; simpl.
  { right. eexists. split_and!; [done..|]. intros (c & b & (Hcp & _ & Hne & _) & _).
    rewrite Hcp in Hc. simpl in Hc. by rewrite bool_decide_eq_true in Hc. }
  destruct (FirebaseConfig.falsy (FirebaseConfig.environ p !! "FIREBASE_STORAGE_BUCKET"))
    eqn:Hb; simpl.
  { right. eexists. split_and!; [done..|]. intros (c & b & (_ & Hbp & _ & Hne) & _).
    rewrite Hbp in Hb. simpl in Hb. by rewrite bool_decide_eq_true in Hb. }
  apply falsy_false in Hc as (c & Hc & Hcne). apply falsy_false in Hb as (b & Hb & Hbne).
  rewrite Hc, Hb. simpl.
  destruct (cert c) as [msg|] eqn:Hcert.
  - right. exists msg. split_and!; [done..|].
    intros (c' & b' & (Hc' & _) & Hcert'). rewrite Hc in Hc'. injection Hc' as <-.
    by rewrite Hcert in Hcert'.
  - left. exists c, b. by split_and!.
Qed.

Lemma initialize_firebase_coherent cert p :
  coherent p → coherent (FirebaseConfig.initialize_firebase cert p).2.
Proof.
  intros Hco.
  destruct (FirebaseConfig._initialized p) eqn:Hflag.
  { by rewrite initialize_firebase_noop. }
  destruct Hco as [Hiff Hne].
  assert (FirebaseConfig.default_app p = None) as Happ.
  { apply eq_None_not_Some. intros Hsome. apply Hiff in Hsome. congruence. }
  destruct (initialize_firebase_fresh cert p Hflag Happ)
    as [(c & b & (_ & _ & Hc & Hb) & _ & ->) | (msg & _ & Hflag' & Happ' & _)].
  - split; simpl; [done|]. by intros ? ? [= <- <-].
  - split.
    + rewrite Hflag', Happ'. split; [done | by intros [? ?]].
    + rewrite Happ'. done.
Qed.

Lemma booted_coherent p : booted p → coherent p.
Proof.
  induction 1 as [vars | cert p _ IH | vars p _ IH].
  - split; simpl; [|done]. split; [done | by intros [? ?]].
  - by apply initialize_firebase_coherent.
  - done.
Qed.

Lemma ensure_initialized_booted cert p :
  booted p → booted (ensure_initialized cert p).2.
Proof.
  intros Hb. unfold ensure_initialized.
  destruct (FirebaseConfig._initialized p); [done | by apply booted_initialize].
Qed.

Lemma get_storage_bucket_process cert p :
  (get_storage_bucket cert p).2 = (ensure_initialized cert p).2.
Proof. unfold get_storage_bucket. by destruct (ensure_initialized cert p) as [[]]. Qed.

Lemma get_firestore_db_process cert cerr p :
  (get_firestore_db cert cerr p).2 = (ensure_initialized cert p).2.
Proof. unfold get_firestore_db. by destruct (ensure_initialized cert p) as [[]]. Qed.

Lemma handles_core p :
  booted p → FirebaseConfig._initialized p = true →
  ∃ c b, FirebaseConfig.default_app p = Some (c, b) ∧
    (∀ cert, get_storage_bucket cert p = (Ok b, p)) ∧
    (∀ cert cerr, get_firestore_db cert cerr p
                  = (match cerr c with Some msg => Raise msg | None => Ok c end, p)).
Proof.
  intros Hb Hflag. destruct (booted_coherent p Hb) as [Hiff Hne].
  destruct (proj1 Hiff Hflag) as [[c b] Happ].
  destruct (Hne c b Happ) as [Hc Hbn].
  exists c, b. split_and!; [done| |].
  - intros cert. unfold get_storage_bucket, ensure_initialized, storage_bucket.
    rewrite Hflag, Happ. by rewrite bool_decide_eq_false_2.
  - intros cert cerr. unfold get_firestore_db, ensure_initialized, firestore_client.
    by rewrite Hflag, Happ.
Qed.





(** X3: constructing a [FileStorageManager] initializes Firebase at
    most once.  When [__init__] succeeds, the flag is set, the handles
    are those of the default app, the collection is 'files', the
    process is either unchanged or was initialized by the first of the
    two handle requests (one line printed), and constructing a manager
    again returns the same handles and leaves the process as it is. *)
Theorem manager_initializes_once cert cerr p m p' :
  booted p →
  FileStorageManager.__init__ cert cerr p = (Ok m, p') →
  FirebaseConfig._initialized p' = true ∧
  FirebaseConfig.default_app p'
  = Some (FileStorageManager.db m, FileStorageManager.bucket m) ∧
  FileStorageManager.collection_name m = "files" ∧
  (p' = p ∨
   FirebaseConfig._initialized p = false ∧
   FirebaseConfig.printed p' = FirebaseConfig.printed p ++ [initialized_line]) ∧
  (∀ cert', FileStorageManager.__init__ cert' cerr p' = (Ok m, p')).
Proof.
  intros Hb Hinit.
  assert (booted (ensure_initialized cert p).2) as Hb1
    by by apply ensure_initialized_booted.
  unfold FileStorageManager.__init__ in Hinit.
  pose proof (get_storage_bucket_process cert p) as Hp1.
  destruct (get_storage_bucket cert p) as [[b|msg] p1] eqn:Hbucket; [|done].
  simpl in Hp1. subst p1.
  assert (FirebaseConfig._initialized (ensure_initialized cert p).2 = true) as Hflag1.
  { revert Hbucket. unfold get_storage_bucket, ensure_initialized.
    destruct (FirebaseConfig._initialized p) eqn:Hflag; [done|].
    destruct (FirebaseConfig.initialize_firebase cert p) as [[[]|?] q] eqn:Hq; [|done].
    intros _. by apply initialize_firebase_sets_flag in Hq. }
  destruct (handles_core _ Hb1 Hflag1) as (c & b' & Happ & Hget & Hdb).
  assert (b' = b) as ->.
  { revert Hbucket. unfold get_storage_bucket.
    destruct (ensure_initialized cert p) as [[[]|?] q]; [|done]. simpl in *.
    unfold storage_bucket. rewrite Happ. by case_bool_decide; intros [= <-]. }
  rewrite Hdb in Hinit. destruct (cerr c) as [msg|] eqn:Hcerr; [done|].
  injection Hinit as <- <-. simpl.
  split_and!; [done | done | done | |].
  - unfold ensure_initialized in *.
    destruct (FirebaseConfig._initialized p) eqn:Hflag; [by left|]. right.
    split; [done|].
    destruct (booted_coherent p Hb) as [Hiff _].
    assert (FirebaseConfig.default_app p = None) as Happ0.
    { apply eq_None_not_Some. intros Hsome. apply Hiff in Hsome. congruence. }
    destruct (initialize_firebase_fresh cert p Hflag Happ0)
      as [(? & ? & _ & _ & ->) | (msg & _ & Hflag' & _)]; [done|congruence].
  - intros cert'. unfold FileStorageManager.__init__.
    by rewrite Hget, Hdb, Hcerr.
Qed.

Lemma manager_initializes_once_witness :
  FirebaseConfig._initialized
    (FileStorageManager.__init__ (λ _, None) (λ _, None)
       (FirebaseConfig.start {[ "FIREBASE_CREDENTIALS_PATH" := "key.json";
                                "FIREBASE_STORAGE_BUCKET" := "mini-cloud" ]})).2
  = true.
Proof.
  refine (proj1 (manager_initializes_once (λ _, None) (λ _, None)
                   (FirebaseConfig.start {[ "FIREBASE_CREDENTIALS_PATH" := "key.json";
                                            "FIREBASE_STORAGE_BUCKET" := "mini-cloud" ]})
                   {| FileStorageManager.bucket := "mini-cloud";
                      FileStorageManager.db := "key.json";
                      FileStorageManager.collection_name := "files" |}
                   _ (booted_start _) _)).
  vm_compute. reflexivity.
Defined.

(** A manager cannot be constructed without the settings. *)
Example manager_without_settings :
  (FileStorageManager.__init__ (λ _, None) (λ _, None) (FirebaseConfig.start ∅)).1
  = Raise FirebaseConfig.missing_configuration.
Proof. vm_compute. done. Qed.

(** ** What the operations touch *)

(** X4: whatever its outcome, [upload_file] changes no blob other than
    the one at its own storage path, no document other than the one
    with the id the store generated for it, and prints nothing. *)
Theorem upload_touches_only_its_own e f w :
  (∀ k, k ≠ storage_path e f →
        bucket (upload_file e f w).2 !! k = bucket w !! k) ∧
  (∀ i, i ≠ auto_id e →
        collection (upload_file e f w).2 !! i = collection w !! i) ∧
  stdout (upload_file e f w).2 = stdout w.
Proof.
  unfold_upload e f.
  destruct (MAX_FILE_SIZE_BYTES <? UploadedFile.size f); [done|].
  destruct (fault e (BlobUploadFromString _)); simpl; [done|].
  destruct (fault e (BlobMakePublic _)); simpl.
  { split_and!; [|done..]. intros k Hk. by rewrite lookup_insert_ne. }
  destruct (fault e (BlobPublicUrl _)); simpl.
  { split_and!; [|done..]. intros k Hk.
    by rewrite lookup_alter_ne, lookup_insert_ne. }
  destruct (fault e (DocumentSet _)); simpl.
  { split_and!; [|done..]. intros k Hk.
    by rewrite lookup_alter_ne, lookup_insert_ne. }
  split_and!; [| |done].
  - intros k Hk. by rewrite lookup_alter_ne, lookup_insert_ne.
  - intros i Hi. by rewrite lookup_insert_ne.
Qed.

(** ** Deleting *)

Lemma delete_file_cases e doc_id path w :
  let w1 := record_call (BlobDelete path) w in
  delete_file e doc_id path w =
    match fault e (BlobDelete path) with
    | Some msg => (DeleteFailure msg, w1)
    | None =>
        match bucket w !! path with
        | None => (DeleteFailure (not_found path), w1)
        | Some _ =>
            let w2 := record_call (DocumentDelete doc_id)
                        (set_bucket (delete path (bucket w)) w1) in
            match fault e (DocumentDelete doc_id) with
            | Some msg => (DeleteFailure msg, w2)
            | None =>
                (DeleteSuccess "File deleted successfully",
                 set_collection (delete doc_id (collection w)) w2)
            end
        end
    end.
Proof.
  unfold delete_file, blob_delete, document_delete, store_call, mbind, M_bind.
  destruct (fault e (BlobDelete path)); simpl; [done|].
  destruct (bucket w !! path); simpl; [|done].
  by destruct (fault e (DocumentDelete doc_id)).
Qed.

(** X5: [delete_file] succeeds exactly when the blob is in the bucket
    and neither store call fails.  It then removes that blob and that
    document; whatever its outcome, it changes no other blob and no
    other document, and after a success no listed record carries the
    deleted id. *)
Theorem delete_file_outcome e doc_id path w :
  ((∃ msg, (delete_file e doc_id path w).1 = DeleteSuccess msg) ↔
   is_Some (bucket w !! path) ∧ fault e (BlobDelete path) = None ∧
   fault e (DocumentDelete doc_id) = None) ∧
  ((∃ msg, (delete_file e doc_id path w).1 = DeleteSuccess msg) →
   bucket (delete_file e doc_id path w).2 = delete path (bucket w) ∧
   collection (delete_file e doc_id path w).2 = delete doc_id (collection w) ∧
   calls (delete_file e doc_id path w).2
   = calls w ++ [BlobDelete path; DocumentDelete doc_id] ∧
   ∀ e' d, d ∈ (get_all_files e' (delete_file e doc_id path w).2).1 →
           d !! "id" ≠ Some (VStr doc_id)) ∧
  (∀ k, k ≠ path → bucket (delete_file e doc_id path w).2 !! k = bucket w !! k) ∧
  (∀ i, i ≠ doc_id →
        collection (delete_file e doc_id path w).2 !! i = collection w !! i).
Proof.
  rewrite delete_file_cases. simpl.
  destruct (fault e (BlobDelete path)) as [m1|]; simpl.
  { split_and!; [|by intros [? ?]|done..]. split; [by intros [? ?] | by intros (_ & ? & _)]. }
  destruct (bucket w !! path) as [b|] eqn:Hb; simpl.
  2: { split_and!; [|by intros [? ?]|done..].
       split; [by intros [? ?] | by intros ([? ?] & _)]. }
  destruct (fault e (DocumentDelete doc_id)) as [m2|]; simpl.
  { split_and!; [|by intros [? ?]| |done].
    - split; [by intros [? ?] | by intros (_ & _ & ?)].
    - intros k Hk. by rewrite lookup_delete_ne. }
  split_and!.
  - split; [by intros _; split_and!; eauto | by eexists].
  - intros _. split_and!; [done | done | by rewrite <-app_assoc |].
    intros e' d Hin. apply elem_of_get_all_files_inv in Hin as (i & d0 & Hd0 & ->).
    simpl in Hd0. unfold with_id. simpl. rewrite lookup_insert_eq.
    intros [= ->]. by rewrite lookup_delete_eq in Hd0.
  - intros k Hk. by rewrite lookup_delete_ne.
  - intros i Hi. by rewrite lookup_delete_ne.
Qed.

Lemma delete_file_outcome_witness :
  bucket
    (delete_file (Ex.env_at 1 "x" Ex.no_fault) "doc1" "uploads/20240309_140500_a.txt"
       (upload_file (Ex.env_at 0 "doc1" Ex.no_fault) Ex.a_txt Ex.empty_world).2).2
  = delete "uploads/20240309_140500_a.txt"
      (bucket (upload_file (Ex.env_at 0 "doc1" Ex.no_fault) Ex.a_txt Ex.empty_world).2).
Proof.
  refine (proj1 (proj1 (proj2 (delete_file_outcome (Ex.env_at 1 "x" Ex.no_fault) "doc1"
                                 "uploads/20240309_140500_a.txt"
                                 (upload_file (Ex.env_at 0 "doc1" Ex.no_fault) Ex.a_txt
                                    Ex.empty_world).2)) _)).
  eexists. vm_compute. reflexivity.
Defined.

(** X6: when the document deletion fails after the blob was removed,
    [delete_file] reports the failure and leaves the record in the
    catalog although its blob is gone: a record of that id whose
    [storage_path] is the deleted path is still listed. *)
Theorem delete_document_failure_dangles e doc_id path w b msg :
  bucket w !! path = Some b →
  fault e (BlobDelete path) = None →
  fault e (DocumentDelete doc_id) = Some msg →
  (delete_file e doc_id path w).1 = DeleteFailure msg ∧
  bucket (delete_file e doc_id path w).2 !! path = None ∧
  collection (delete_file e doc_id path w).2 = collection w ∧
  (∀ e' d, collection w !! doc_id = Some d →
           d !! "storage_path" = Some (VStr path) →
           is_Some (d !! "uploaded_at") →
           fault e' QueryStream = None →
           ∃ d', d' ∈ (get_all_files e' (delete_file e doc_id path w).2).1 ∧
                 d' !! "id" = Some (VStr doc_id) ∧
                 d' !! "storage_path" = Some (VStr path)).
Proof.
  intros Hb F1 F2. rewrite delete_file_cases. simpl. rewrite F1, Hb, F2. simpl.
  split_and!; [done | apply lookup_delete_eq | done |].
  intros e' d Hd Hpath Hup Hok. exists (with_id (doc_id, d)). split_and!.
  - by apply elem_of_get_all_files.
  - apply lookup_insert_eq.
  - unfold with_id. simpl. by rewrite lookup_insert_ne.
Qed.

Lemma delete_document_failure_dangles_witness :
  (delete_file (Ex.env_at 1 "x" (Ex.fails_on (DocumentDelete "doc1") "503 unavailable"))
     "doc1" "uploads/20240309_140500_a.txt"
     (upload_file (Ex.env_at 0 "doc1" Ex.no_fault) Ex.a_txt Ex.empty_world).2).1
  = DeleteFailure "503 unavailable".
Proof.
  refine (proj1 (delete_document_failure_dangles
                   (Ex.env_at 1 "x" (Ex.fails_on (DocumentDelete "doc1") "503 unavailable"))
                   "doc1" "uploads/20240309_140500_a.txt"
                   (upload_file (Ex.env_at 0 "doc1" Ex.no_fault) Ex.a_txt
                      Ex.empty_world).2
                   (uploaded_blob Ex.a_txt) "503 unavailable" _ _ _)).
  - vm_compute. reflexivity.
  - vm_compute. reflexivity.
  - vm_compute. reflexivity.
Defined.

(** X7: deleting what was just uploaded, with the id and the storage
    path the upload returned, undoes it: when the path and the id were
    free before the upload and the two delete calls do not fail, the
    bucket and the catalog are back to what they were. *)
Theorem upload_then_delete_restores e f w md id w' e' :
  upload_file e f w = (UploadSuccess md id, w') →
  bucket w !! storage_path e f = None →
  collection w !! id = None →
  fault e' (BlobDelete (storage_path e f)) = None →
  fault e' (DocumentDelete id) = None →
  md !! "storage_path" = Some (VStr (storage_path e f)) ∧
  (delete_file e' id (storage_path e f) w').1
  = DeleteSuccess "File deleted successfully" ∧
  bucket (delete_file e' id (storage_path e f) w').2 = bucket w ∧
  collection (delete_file e' id (storage_path e f) w').2 = collection w.
Proof.
  intros Hup Hb Hc F1 F2.
  apply upload_file_success_inv in Hup as (_ & _ & -> & -> & ->).
  rewrite delete_file_cases. simpl. rewrite F1, lookup_insert_eq, F2. simpl.
  split_and!; [done | done | |].
  - by rewrite delete_insert_id.
  - by rewrite delete_insert_id.
Qed.

Lemma upload_then_delete_restores_witness :
  bucket
    (delete_file (Ex.env_at 1 "x" Ex.no_fault) "doc1" "uploads/20240309_140500_a.txt"
       (upload_file (Ex.env_at 0 "doc1" Ex.no_fault) Ex.a_txt Ex.empty_world).2).2
  = ∅.
Proof.
  refine (proj1 (proj2 (proj2
    (upload_then_delete_restores (Ex.env_at 0 "doc1" Ex.no_fault) Ex.a_txt
       Ex.empty_world
       (upload_metadata (Ex.env_at 0 "doc1" Ex.no_fault) Ex.a_txt) "doc1"
       (uploaded_world (Ex.env_at 0 "doc1" Ex.no_fault) Ex.a_txt Ex.empty_world)
       (Ex.env_at 1 "x" Ex.no_fault) _ _ _ _ _)))).
  - vm_compute. reflexivity.
  - vm_compute. reflexivity.
  - vm_compute. reflexivity.
  - vm_compute. reflexivity.
  - vm_compute. reflexivity.
Defined.

(** ** The listing and the statistics after an operation *)

Lemma order_by_descending_insert field (m : gmap string document) id d :
  m !! id = None → is_Some (d !! field) →
  order_by_descending field (<[id := d]> m)
  ≡ₚ (id, d) :: order_by_descending field m.
Proof.
  intros Hfresh Hfield. rewrite !order_by_descending_perm.
  rewrite map_to_list_insert by done. by rewrite filter_cons_True.
Qed.

Lemma order_by_descending_delete field (m : gmap string document) id d :
  m !! id = Some d → is_Some (d !! field) →
  (id, d) :: order_by_descending field (delete id m)
  ≡ₚ order_by_descending field m.
Proof.
  intros Hd Hfield. rewrite !order_by_descending_perm.
  rewrite <-(map_to_list_delete m id d Hd). by rewrite filter_cons_True.
Qed.

Lemma sum_size_bytes_perm l1 l2 : l1 ≡ₚ l2 → sum_size_bytes l1 = sum_size_bytes l2.
Proof.
  induction 1 as [|x l1 l2 _ IH|x y l|l1 l2 l3 _ IH1 _ IH2]; simpl;
    [done | by rewrite IH | lia | by rewrite IH1].
Qed.

Lemma get_storage_stats_typed e w :
  Forall size_bytes_typed (get_all_files e w).1 →
  get_storage_stats e w
  = Some ({| total_files := Z.of_nat (length (get_all_files e w).1);
             total_size_bytes := sum_size_bytes (get_all_files e w).1;
             total_size_mb := Py.round_mb (sum_size_bytes (get_all_files e w).1) |},
          (get_all_files e w).2).
Proof.
  intros Htyped. unfold get_storage_stats.
  destruct (get_all_files e w) as [files w']. simpl in *.
  by rewrite (py_sum_typed 0 files Htyped).
Qed.

Lemma upload_metadata_size_bytes e f :
  upload_metadata e f !! "size_bytes" = Some (VInt (UploadedFile.size f)).
Proof. done. Qed.

(** X8: a successful upload under a fresh id adds one file and its
    size to the statistics: with integer or absent [size_bytes] in the
    records listed before, [total_files] grows by 1 and
    [total_size_bytes] by the [size] of the uploaded file; when the new
    total is below 2^53 in absolute value, [total_size_mb] is that
    total in MiB rounded to two decimals. *)
Theorem stats_after_upload e f w md id w' e1 e2 :
  upload_file e f w = (UploadSuccess md id, w') →
  collection w !! id = None →
  fault e1 QueryStream = None → fault e2 QueryStream = None →
  Forall size_bytes_typed (get_all_files e1 w).1 →
  ∃ s1 w1 s2 w2,
    get_storage_stats e1 w = Some (s1, w1) ∧
    get_storage_stats e2 w' = Some (s2, w2) ∧
    total_files s2 = total_files s1 + 1 ∧
    total_size_bytes s2 = total_size_bytes s1 + UploadedFile.size f ∧
    (Z.abs (total_size_bytes s1 + UploadedFile.size f) < 2 ^ 53 →
     total_size_mb s2 = Py.round_mb (total_size_bytes s1 + UploadedFile.size f)).
Proof.
  intros Hup Hfresh Hok1 Hok2 Htyped.
  apply upload_file_success_inv in Hup as (_ & _ & -> & -> & ->).
  assert ((get_all_files e2 (uploaded_world e f w)).1
          ≡ₚ with_id (auto_id e, upload_metadata e f) :: (get_all_files e1 w).1)
    as Hperm.
  { rewrite !get_all_files_ok by done. simpl.
    rewrite order_by_descending_insert; [done | done | by eexists]. }
  assert (Forall size_bytes_typed (get_all_files e2 (uploaded_world e f w)).1)
    as Htyped'.
  { rewrite Hperm. constructor; [|done].
    unfold size_bytes_typed, with_id. simpl.
    by rewrite lookup_insert_ne, upload_metadata_size_bytes. }
  do 4 eexists.
  rewrite (get_storage_stats_typed e1 w Htyped).
  rewrite (get_storage_stats_typed e2 _ Htyped').
  split_and!; [done | done | ..]; simpl.
  - rewrite Hperm. simpl. lia.
  - rewrite (sum_size_bytes_perm _ _ Hperm). simpl.
    unfold size_bytes_of at 1, with_id. simpl.
    rewrite lookup_insert_ne, upload_metadata_size_bytes by done. lia.
  - intros _. rewrite (sum_size_bytes_perm _ _ Hperm). simpl.
    unfold size_bytes_of at 1, with_id. simpl.
    rewrite lookup_insert_ne, upload_metadata_size_bytes by done. f_equal. lia.
Qed.

Lemma stats_after_upload_witness :
  ∃ s1 w1 s2 w2,
    get_storage_stats (Ex.env_at 8 "x" Ex.no_fault)
      (upload_file (Ex.env_at 0 "doc1" Ex.no_fault) Ex.a_txt Ex.empty_world).2
    = Some (s1, w1) ∧
    get_storage_stats (Ex.env_at 9 "y" Ex.no_fault)
      (uploaded_world (Ex.env_at 1 "doc2" Ex.no_fault) (Ex.named "two.txt")
         (upload_file (Ex.env_at 0 "doc1" Ex.no_fault) Ex.a_txt Ex.empty_world).2)
    = Some (s2, w2) ∧
    total_files s2 = total_files s1 + 1 ∧
    total_size_bytes s2 = total_size_bytes s1 + 5 ∧
    (Z.abs (total_size_bytes s1 + 5) < 2 ^ 53 →
     total_size_mb s2 = Py.round_mb (total_size_bytes s1 + 5)).
Proof.
  refine (stats_after_upload (Ex.env_at 1 "doc2" Ex.no_fault) (Ex.named "two.txt")
            (upload_file (Ex.env_at 0 "doc1" Ex.no_fault) Ex.a_txt Ex.empty_world).2
            (upload_metadata (Ex.env_at 1 "doc2" Ex.no_fault) (Ex.named "two.txt"))
            "doc2" _ (Ex.env_at 8 "x" Ex.no_fault) (Ex.env_at 9 "y" Ex.no_fault)
            _ _ _ _ _).
  - vm_compute. reflexivity.
  - vm_compute. reflexivity.
  - vm_compute. reflexivity.
  - vm_compute. reflexivity.
  - apply (bool_decide_unpack _). vm_compute. exact I.
Defined.

(** X9: the listing shows documents of the catalog and nothing else:
    every listed record is a document that carries [uploaded_at], with
    its own id stored under 'id' and its other fields untouched, and no
    document is listed twice. *)
Theorem listing_is_faithful e w :
  NoDup ((λ d : document, d !! "id") <$> (get_all_files e w).1) ∧
  (∀ d, d ∈ (get_all_files e w).1 →
     ∃ id d0, collection w !! id = Some d0 ∧ is_Some (d0 !! "uploaded_at") ∧
              d !! "id" = Some (VStr id) ∧
              ∀ k, k ≠ "id" → d !! k = d0 !! k).
Proof.
  unfold get_all_files, stream, store_call.
  destruct (fault e QueryStream); simpl.
  { split; [constructor | by intros ? ?%elem_of_nil]. }
  split.
  - rewrite <-list_fmap_compose.
    assert (NoDup ((order_by_descending "uploaded_at" (collection w)).*1)) as Hnd.
    { rewrite order_by_descending_perm.
      eapply sublist_NoDup; [apply (NoDup_fst_map_to_list (collection w))|].
      apply fmap_sublist, sublist_filter. }
    assert (Inj (=) (=) (λ id : string, Some (VStr id))) as Hinj.
    { by intros i j [= ->]. }
    apply (NoDup_fmap_2 (λ id : string, Some (VStr id))) in Hnd.
    rewrite <-list_fmap_compose in Hnd.
    erewrite list_fmap_ext; [exact Hnd|].
    intros i [id d] _. unfold with_id. simpl. apply lookup_insert_eq.
  - intros d Hin. apply list_elem_of_fmap in Hin as [[id d0] [-> Hin]].
    apply elem_of_order_by_descending in Hin as [Hd0 Hup].
    exists id, d0. split_and!; [done | done | apply lookup_insert_eq |].
    intros k Hk. unfold with_id. simpl. by rewrite lookup_insert_ne.
Qed.

(** X10: two uploads of files with the same name within the same clock
    second get the same storage path.  When both succeed, the blob at
    that path holds the content of the second upload only, while both
    records stay in the catalog, pointing at that one path. *)
Theorem same_name_same_second_overwrites e1 f1 e2 f2 w md1 id1 w1 md2 id2 w2 :
  upload_file e1 f1 w = (UploadSuccess md1 id1, w1) →
  upload_file e2 f2 w1 = (UploadSuccess md2 id2, w2) →
  UploadedFile.name f1 = UploadedFile.name f2 →
  Py.strftime (now_filename e1) = Py.strftime (now_filename e2) →
  id1 ≠ id2 →
  bucket w2 !! storage_path e1 f1 = Some (uploaded_blob f2) ∧
  collection w2 !! id1 = Some md1 ∧
  collection w2 !! id2 = Some md2 ∧
  md1 !! "storage_path" = Some (VStr (storage_path e1 f1)) ∧
  md2 !! "storage_path" = Some (VStr (storage_path e1 f1)).
Proof.
  intros Hup1 Hup2 Hname Hstamp Hid.
  apply upload_file_success_inv in Hup1 as (_ & _ & -> & -> & ->).
  apply upload_file_success_inv in Hup2 as (_ & _ & -> & -> & ->).
  assert (storage_path e2 f2 = storage_path e1 f1) as Hpath.
  { unfold storage_path, stored_name. by rewrite Hname, Hstamp. }
  simpl. split_and!.
  - rewrite Hpath. apply lookup_insert_eq.
  - rewrite lookup_insert_ne by done. apply lookup_insert_eq.
  - apply lookup_insert_eq.
  - done.
  - unfold upload_metadata. simpl. by rewrite Hpath.
Qed.

Lemma same_name_same_second_overwrites_witness :
  bucket
    (uploaded_world (Ex.env_at 0 "doc2" Ex.no_fault) More.a_txt_again
       (uploaded_world (Ex.env_at 0 "doc1" Ex.no_fault) Ex.a_txt Ex.empty_world))
  !! "uploads/20240309_140500_a.txt"
  = Some (uploaded_blob More.a_txt_again).
Proof.
  refine (proj1 (same_name_same_second_overwrites
                   (Ex.env_at 0 "doc1" Ex.no_fault) Ex.a_txt
                   (Ex.env_at 0 "doc2" Ex.no_fault) More.a_txt_again Ex.empty_world
                   (upload_metadata (Ex.env_at 0 "doc1" Ex.no_fault) Ex.a_txt) "doc1"
                   (uploaded_world (Ex.env_at 0 "doc1" Ex.no_fault) Ex.a_txt
                      Ex.empty_world)
                   (upload_metadata (Ex.env_at 0 "doc2" Ex.no_fault) More.a_txt_again)
                   "doc2" _ _ _ _ _ _)).
  - vm_compute. reflexivity.
  - vm_compute. reflexivity.
  - reflexivity.
  - reflexivity.
  - vm_compute. discriminate.
Defined.

(** ** The records of the catalog *)

Lemma reachable_from_uploads w :
  reachable w →
  map_Forall (λ _ d, ∃ e f, d = upload_metadata e f ∧
                             UploadedFile.size f ≤ MAX_FILE_SIZE_BYTES)
    (collection w).
Proof.
  induction 1 as [w Hempty | e f w _ IH | e doc_id path w _ IH | e w _ IH
                 | e w s w' _ IH Hstats].
  - rewrite Hempty. apply map_Forall_empty.
  - destruct (upload_file e f w) as [[msg|md id] w'] eqn:Hup; simpl.
    + by rewrite (upload_file_failure_collection _ _ _ _ _ Hup).
    + apply upload_file_success_inv in Hup as (Hsz & _ & _ & _ & ->). simpl.
      apply map_Forall_insert_2; [by exists e, f | done].
  - destruct (delete_file_collection e doc_id path w) as [-> | ->]; [done|].
    by apply map_Forall_delete.
  - by rewrite get_all_files_collection.
  - by rewrite (get_storage_stats_collection _ _ _ _ Hstats).
Qed.

(** X11: in a catalog that only the service has written, every record
    is the metadata of some upload that passed the size gate.  Its
    [size_bytes] is an integer not above the 10 MiB limit, [size_mb] is
    that size in MiB rounded to two decimals (for a size above -2^53),
    [stored_name] is the '%Y%m%d_%H%M%S' stamp of a clock reading, an
    underscore and [original_name], [storage_path] is "uploads/" and
    [stored_name], [file_extension] is the extension of
    [original_name], [uploaded_at] is a datetime, [download_url] and
    [mime_type] are present, and there is no 'id' field. *)
Theorem catalog_records_are_uploads w id d :
  reachable w → collection w !! id = Some d →
  ∃ n name t0 t,
    d !! "size_bytes" = Some (VInt n) ∧ n ≤ 10 * 1024 * 1024 ∧
    (- 2 ^ 53 < n → d !! "size_mb" = Some (VFloat2 (Py.round_mb n))) ∧
    d !! "original_name" = Some (VStr name) ∧
    d !! "stored_name" = Some (VStr (Py.strftime t0 +:+ "_" +:+ name)) ∧
    d !! "storage_path"
    = Some (VStr ("uploads/" +:+ (Py.strftime t0 +:+ "_" +:+ name))) ∧
    d !! "file_extension" = Some (VStr (Py.splitext name).2) ∧
    d !! "uploaded_at" = Some (VTime t) ∧
    is_Some (d !! "download_url") ∧ is_Some (d !! "mime_type") ∧
    d !! "id" = None.
Proof.
  intros Hreach Hd.
  destruct (reachable_from_uploads w Hreach id d Hd) as (e & f & -> & Hsz).
  exists (UploadedFile.size f), (UploadedFile.name f),
    (now_filename e), (now_uploaded_at e).
  split_and!; try done; by eexists.
Qed.

Lemma catalog_records_are_uploads_witness :
  ∃ n name t0 t,
    upload_metadata (Ex.env_at 0 "doc1" Ex.no_fault) Ex.a_txt !! "size_bytes"
    = Some (VInt n) ∧ n ≤ 10 * 1024 * 1024 ∧
    (- 2 ^ 53 < n →
     upload_metadata (Ex.env_at 0 "doc1" Ex.no_fault) Ex.a_txt !! "size_mb"
     = Some (VFloat2 (Py.round_mb n))) ∧
    upload_metadata (Ex.env_at 0 "doc1" Ex.no_fault) Ex.a_txt !! "original_name"
    = Some (VStr name) ∧
    upload_metadata (Ex.env_at 0 "doc1" Ex.no_fault) Ex.a_txt !! "stored_name"
    = Some (VStr (Py.strftime t0 +:+ "_" +:+ name)) ∧
    upload_metadata (Ex.env_at 0 "doc1" Ex.no_fault) Ex.a_txt !! "storage_path"
    = Some (VStr ("uploads/" +:+ (Py.strftime t0 +:+ "_" +:+ name))) ∧
    upload_metadata (Ex.env_at 0 "doc1" Ex.no_fault) Ex.a_txt !! "file_extension"
    = Some (VStr (Py.splitext name).2) ∧
    upload_metadata (Ex.env_at 0 "doc1" Ex.no_fault) Ex.a_txt !! "uploaded_at"
    = Some (VTime t) ∧
    is_Some (upload_metadata (Ex.env_at 0 "doc1" Ex.no_fault) Ex.a_txt !! "download_url") ∧
    is_Some (upload_metadata (Ex.env_at 0 "doc1" Ex.no_fault) Ex.a_txt !! "mime_type") ∧
    upload_metadata (Ex.env_at 0 "doc1" Ex.no_fault) Ex.a_txt !! "id" = None.
Proof.
  refine (catalog_records_are_uploads
            (upload_file (Ex.env_at 0 "doc1" Ex.no_fault) Ex.a_txt Ex.empty_world).2
            "doc1" _ _ _).
  - apply reachable_upload, reachable_empty. reflexivity.
  - vm_compute. reflexivity.
Defined.

(** ** Decimal digits *)

Lemma zfill_two_digits n : 0 ≤ n < 100 → Py.zfill 2 (Py.str n) = two_digits n.
Proof.
  intros Hn.
  assert (Forall (λ k, Py.zfill 2 (Py.str k) = two_digits k) (seqZ 0 100)) as Hall.
  { apply (bool_decide_unpack _). vm_compute. exact I. }
  rewrite Forall_forall in Hall. apply Hall, elem_of_seqZ. lia.
Qed.

Lemma zfill_four_digits n : 0 ≤ n < 10000 → Py.zfill 4 (Py.str n) = four_digits n.
Proof.
  intros Hn.
  assert (Forall (λ k, Py.zfill 4 (Py.str k) = four_digits k) (seqZ 0 10000)) as Hall.
  { apply (bool_decide_unpack _). vm_compute. exact I. }
  rewrite Forall_forall in Hall. apply Hall, elem_of_seqZ. lia.
Qed.

Lemma digit_inj a b : 0 ≤ a < 10 → 0 ≤ b < 10 → Py.digit a = Py.digit b → a = b.
Proof.
  intros Ha Hb Heq. unfold Py.digit in Heq.
  apply (f_equal N_of_ascii) in Heq.
  rewrite !N_ascii_embedding in Heq by lia. lia.
Qed.

(** ** [format_file_size] *)

Lemma format_2f_digits h :
  0 ≤ h → App.format_2f h = Py.str (h / 100) +:+ "." +:+ two_digits (h mod 100).
Proof.
  intros Hh. unfold App.format_2f. rewrite zfill_two_digits; [done|].
  apply Z.mod_pos_bound. lia.
Qed.

(** X12: [format_file_size] shows a size below 1024 as the exact number
    of bytes; from 1024 up to 1 MiB as kilobytes and from 1 MiB up to
    2^53 as megabytes, with exactly two decimals, the figure shown
    being within half a hundredth of the true quotient.  The megabyte
    figure is the [size_mb] of the record.  The kilobyte figure runs
    from 1.00 to 1024.00: the five sizes just below 1 MiB show as
    "1024.00 KB". *)
Theorem format_file_size_reading n :
  (n < 1024 → App.format_file_size n = App.str_int n +:+ " B") ∧
  (1024 ≤ n < 1024 * 1024 →
   ∃ h, App.format_file_size n
        = (Py.str (h / 100) +:+ "." +:+ two_digits (h mod 100)) +:+ " KB" ∧
        100 ≤ h ≤ 102400 ∧ Z.abs (100 * n - 1024 * h) ≤ 512) ∧
  (1024 * 1024 ≤ n < 2 ^ 53 →
   App.format_file_size n
   = (Py.str (Py.round_mb n / 100) +:+ "." +:+ two_digits (Py.round_mb n mod 100))
     +:+ " MB" ∧
   100 ≤ Py.round_mb n ∧ Z.abs (100 * n - 1048576 * Py.round_mb n) ≤ 524288) ∧
  (1048571 ≤ n < 1048576 → App.format_file_size n = "1024.00 KB").
Proof.
  pose proof (round_half_even_nearest (100 * n) 1024 ltac:(lia)) as Hkb.
  pose proof (round_mb_nearest n) as Hmb.
  split_and!.
  - intros Hn. unfold App.format_file_size.
    by destruct (Z.ltb_spec n 1024); [|lia].
  - intros Hn. exists (Py.round_half_even (100 * n) 1024).
    unfold App.format_file_size.
    destruct (Z.ltb_spec n 1024); [lia|].
    destruct (Z.ltb_spec n (1024 * 1024)); [|lia].
    rewrite format_2f_digits by lia. split_and!; [done | lia..].
  - intros Hn. unfold App.format_file_size.
    destruct (Z.ltb_spec n 1024); [lia|].
    destruct (Z.ltb_spec n (1024 * 1024)); [lia|].
    fold (Py.round_mb n). rewrite format_2f_digits by lia. split_and!; [done | lia..].
  - intros Hn. unfold App.format_file_size.
    destruct (Z.ltb_spec n 1024); [lia|].
    destruct (Z.ltb_spec n (1024 * 1024)); [|lia].
    assert (Py.round_half_even (100 * n) 1024 = 102400) as -> by lia.
    reflexivity.
Qed.

Lemma format_file_size_reading_witness :
  App.format_file_size 1048575 = "1024.00 KB" ∧
  App.format_file_size 5767168 = "5.50 MB".
Proof.
  split.
  - refine (proj2 (proj2 (proj2 (format_file_size_reading 1048575))) _). lia.
  - refine (proj1 (proj1 (proj2 (proj2 (format_file_size_reading 5767168))) _)). lia.
Defined.

Example format_file_size_examples :
  App.format_file_size 0 = "0 B" ∧ App.format_file_size 1023 = "1023 B" ∧
  App.format_file_size 1024 = "1.00 KB" ∧ App.format_file_size 1536 = "1.50 KB" ∧
  App.format_file_size 1152 = "1.12 KB" ∧ App.format_file_size 1048576 = "1.00 MB" ∧
  App.format_file_size 10485760 = "10.00 MB" ∧ App.format_file_size (-5) = "-5 B".
Proof. vm_compute. done. Qed.

(** ** The timestamp of the stored name *)

Lemma strftime_digits d :
  valid_datetime d →
  Py.strftime d
  = four_digits (Py.year d) +:+ two_digits (Py.month d) +:+ two_digits (Py.day d)
    +:+ "_" +:+ two_digits (Py.hour d) +:+ two_digits (Py.minute d)
    +:+ two_digits (Py.second d).
Proof.
  intros (Hy & Hm & Hd & HH & HM & HS). unfold Py.strftime.
  rewrite zfill_four_digits by lia. by rewrite !zfill_two_digits by lia.
Qed.

Lemma two_digits_inj a b :
  0 ≤ a < 100 → 0 ≤ b < 100 →
  Py.digit (a / 10) = Py.digit (b / 10) → Py.digit (a mod 10) = Py.digit (b mod 10) →
  a = b.
Proof.
  intros Ha Hb H1 H2.
  apply digit_inj in H1; [|split; [apply Z.div_pos | apply Z.div_lt_upper_bound]; lia..].
  apply digit_inj in H2; [|apply Z.mod_pos_bound; lia..].
  rewrite (Z.div_mod a 10), (Z.div_mod b 10) by lia. by rewrite H1, H2.
Qed.

Lemma four_digits_inj a b :
  0 ≤ a < 10000 → 0 ≤ b < 10000 →
  four_digits a = four_digits b → a = b.
Proof.
  intros Ha Hb [= H1 H2 H3 H4].
  apply digit_inj in H1; [|split; [apply Z.div_pos | apply Z.div_lt_upper_bound]; lia..].
  apply digit_inj in H2; [|apply Z.mod_pos_bound; lia..].
  apply digit_inj in H3; [|apply Z.mod_pos_bound; lia..].
  apply digit_inj in H4; [|apply Z.mod_pos_bound; lia..].
  revert H1 H2 H3 H4. Z.div_mod_to_equations. lia.
Qed.

Lemma strftime_inj a b :
  valid_datetime a → valid_datetime b →
  ∀ s1 s2, Py.strftime a +:+ s1 = Py.strftime b +:+ s2 → same_second a b ∧ s1 = s2.
Proof.
  intros Ha Hb s1 s2. rewrite !strftime_digits by done.
  destruct Ha as (Hy & Hm & Hd & HH & HM & HS).
  destruct Hb as (Hy' & Hm' & Hd' & HH' & HM' & HS').
  unfold two_digits. unfold four_digits at 1 2.
  intros [= Y1 Y2 Y3 Y4 M1 M2 D1 D2 h1 h2 m1 m2 c1 c2 Hs].
  assert (four_digits (Py.year a) = four_digits (Py.year b)) as HY.
  { unfold four_digits. by rewrite Y1, Y2, Y3, Y4. }
  apply four_digits_inj in HY; [|lia..].
  split; [|done]. unfold same_second.
  split_and!; [done | apply two_digits_inj; (done || lia)..].
Qed.

(** X13: the timestamp in a stored name always has 15 characters, and
    two uploads get the same storage path exactly when the files have
    the same name and the clock read the same second at both. *)
Theorem storage_path_collision e1 f1 e2 f2 :
  valid_datetime (now_filename e1) → valid_datetime (now_filename e2) →
  String.length (Py.strftime (now_filename e1)) = 15%nat ∧
  (storage_path e1 f1 = storage_path e2 f2 ↔
   same_second (now_filename e1) (now_filename e2) ∧
   UploadedFile.name f1 = UploadedFile.name f2).
Proof.
  intros H1 H2. split.
  { rewrite strftime_digits by done. reflexivity. }
  unfold storage_path, stored_name. split.
  - simpl. intros [= Heq].
    apply strftime_inj in Heq as [Hsame [= Hname]]; done.
  - intros [(Hy & Hm & Hd & HH & HM & HS) Hname].
    rewrite !strftime_digits by done.
    by rewrite Hy, Hm, Hd, HH, HM, HS, Hname.
Qed.

Lemma storage_path_collision_witness :
  String.length (Py.strftime (Ex.at_second 7)) = 15%nat.
Proof.
  refine (proj1 (storage_path_collision (Ex.env_at 7 "p" Ex.no_fault) Ex.a_txt
                   (Ex.env_at 8 "q" Ex.no_fault) Ex.a_txt _ _)).
  - vm_compute. repeat split; discriminate.
  - vm_compute. repeat split; discriminate.
Defined.

(** ** The extension *)

Lemma get_lt_length n p c : String.get n p = Some c → (n < String.length p)%nat.
Proof.
  revert n. induction p as [|a p IH]; intros [|n]; simpl; try done; [lia|].
  intros H. apply IH in H. lia.
Qed.

Lemma substring_all p : substring 0 (String.length p) p = p.
Proof. induction p as [|a p IH]; simpl; [done | by rewrite IH]. Qed.

Lemma substring_split n p :
  (n ≤ String.length p)%nat →
  substring 0 n p +:+ substring n (String.length p - n) p = p.
Proof.
  revert n. induction p as [|a p IH]; intros [|n] Hn.
  - done.
  - simpl in Hn. lia.
  - rewrite Nat.sub_0_r. apply substring_all.
  - change (String a (substring 0 n p +:+ substring n (String.length p - n) p)
            = String a p).
    f_equal. apply IH. simpl in Hn. lia.
Qed.

Lemma get_substring_from n p j :
  (n ≤ String.length p)%nat →
  String.get j (substring n (String.length p - n) p) = String.get (n + j) p.
Proof.
  revert n. induction p as [|a p IH]; intros [|n] Hn.
  - done.
  - simpl in Hn. lia.
  - by rewrite Nat.sub_0_r, substring_all.
  - change (String.get j (substring n (String.length p - n) p)
            = String.get (n + j) p).
    apply IH. simpl in Hn. lia.
Qed.

Lemma rfind_from_last i c p (j : nat) :
  0 ≤ i → Py.rfind_from i c p < i + Z.of_nat j → String.get j p ≠ Some c.
Proof.
  revert i j. induction p as [|a p IH]; intros i j Hi; simpl; [by destruct j|].
  destruct (rfind_from_range (i + 1) c p) as [Hr | Hr].
  - rewrite Hr. simpl. destruct j as [|j].
    + destruct (Ascii.eqb_spec a c); [lia | congruence].
    + intros _. apply (IH (i + 1)); lia.
  - destruct (Z.leb_spec 0 (Py.rfind_from (i + 1) c p)); [|lia].
    destruct j as [|j]; [lia|]. intros Hlt. apply (IH (i + 1)); lia.
Qed.

Lemma rfind_last c p (j : nat) :
  Py.rfind c p < Z.of_nat j → String.get j p ≠ Some c.
Proof. unfold Py.rfind. intros H. apply (rfind_from_last 0); [done | lia]. Qed.

Lemma append_empty_r p : p +:+ "" = p.
Proof.
  induction p as [|a p IH]; [done|].
  change (String a (p +:+ "") = String a p). by rewrite IH.
Qed.

Lemma splitext_shape p :
  (Py.splitext p).1 +:+ (Py.splitext p).2 = p ∧
  ((Py.splitext p).2 = "" ∨
   String.get 0 (Py.splitext p).2 = Some "."%char ∧
   ∀ j c, String.get j (Py.splitext p).2 = Some c →
          c ≠ "/"%char ∧ (c = "."%char → j = 0%nat)).
Proof.
  unfold Py.splitext.
  pose proof (rfind_lower "/" p) as Hsep.
  destruct (Py.rfind "/" p <? Py.rfind "." p) eqn:Hlt; simpl.
  2: { split; [apply append_empty_r | by left]. }
  destruct (Py.has_non_dot _ _ _); simpl.
  2: { split; [apply append_empty_r | by left]. }
  apply Z.ltb_lt in Hlt.
  pose proof (rfind_get "." p ltac:(lia)) as Hget.
  pose proof (get_lt_length _ _ _ Hget) as Hlen.
  unfold Py.slice_to, Py.slice_from.
  split; [apply substring_split; lia|]. right.
  split.
  - rewrite get_substring_from by lia. by rewrite Nat.add_0_r.
  - intros j c. rewrite get_substring_from by lia. intros Hc. split.
    + intros ->. revert Hc. apply rfind_last. lia.
    + intros ->. destruct j as [|j]; [done|]. exfalso. revert Hc. apply rfind_last. lia.
Qed.

(** X14: the [file_extension] of an uploaded record is a suffix of its
    [original_name]; it is empty, or it begins with a dot and has no
    other dot and no slash. *)
Theorem file_extension_shape e f w md id w' :
  upload_file e f w = (UploadSuccess md id, w') →
  ∃ root ext,
    md !! "file_extension" = Some (VStr ext) ∧
    UploadedFile.name f = root +:+ ext ∧
    (ext = "" ∨
     String.get 0 ext = Some "."%char ∧
     ∀ j c, String.get j ext = Some c → c ≠ "/"%char ∧ (c = "."%char → j = 0%nat)).
Proof.
  intros Hup. apply upload_file_success_inv in Hup as (_ & _ & -> & _ & _).
  destruct (splitext_shape (UploadedFile.name f)) as [Happ Hshape].
  by exists (Py.splitext (UploadedFile.name f)).1, (Py.splitext (UploadedFile.name f)).2.
Qed.

Lemma file_extension_shape_witness :
  ∃ root ext,
    upload_metadata (Ex.env_at 0 "doc1" Ex.no_fault) Ex.a_txt !! "file_extension"
    = Some (VStr ext) ∧
    "a.txt" = root +:+ ext ∧
    (ext = "" ∨
     String.get 0 ext = Some "."%char ∧
     ∀ j c, String.get j ext = Some c → c ≠ "/"%char ∧ (c = "."%char → j = 0%nat)).
Proof.
  refine (file_extension_shape (Ex.env_at 0 "doc1" Ex.no_fault) Ex.a_txt Ex.empty_world
            (upload_metadata (Ex.env_at 0 "doc1" Ex.no_fault) Ex.a_txt) "doc1"
            (uploaded_world (Ex.env_at 0 "doc1" Ex.no_fault) Ex.a_txt Ex.empty_world) _).
  vm_compute. reflexivity.
Defined.

(** ** The table of the files tab *)

Lemma file_row_upload id e f :
  ∃ row, file_row (with_id (id, upload_metadata e f)) = Some (Ok row) ∧
         row_of (with_id (id, upload_metadata e f)) row.
Proof.
  eexists. split; [reflexivity|].
  unfold row_of. split_and!; [done | by eexists | by eexists | by eexists | done..].
Qed.

Lemma file_data_uploads files :
  Forall (λ d, ∃ id e f, d = with_id (id, upload_metadata e f)) files →
  ∃ rows, file_data files = Some (Ok rows) ∧ Forall2 row_of files rows.
Proof.
  induction 1 as [|d files (id & e & f & ->) _ (rows & Hrows & Hall)]; simpl.
  { by exists []. }
  destruct (file_row_upload id e f) as (row & -> & Hrow). simpl.
  rewrite Hrows. simpl. exists (row :: rows). split; [done | by constructor].
Qed.

(** X15: on a catalog that only the service has written, building the
    table of the files tab never fails: every key the page reads is one
    that [upload_file] writes.  There is one row per listed record, in
    the order of the listing, showing the record's name, its size as
    [format_file_size] gives it, its content type or 'Unknown' when
    that is missing or empty, its upload time to the second, its
    storage path and its download URL. *)
Theorem files_table_never_fails e w :
  reachable w →
  ∃ rows, file_data (get_all_files e w).1 = Some (Ok rows) ∧
          Forall2 row_of (get_all_files e w).1 rows.
Proof.
  intros Hreach. apply file_data_uploads, Forall_forall. intros d Hin.
  apply elem_of_get_all_files_inv in Hin as (id & d0 & Hd0 & ->).
  destruct (reachable_from_uploads w Hreach id d0 Hd0) as (e0 & f0 & -> & _).
  by exists id, e0, f0.
Qed.

Lemma files_table_never_fails_witness :
  ∃ rows,
    file_data (get_all_files (Ex.env_at 9 "x" Ex.no_fault) More.two_files).1
    = Some (Ok rows) ∧
    Forall2 row_of (get_all_files (Ex.env_at 9 "x" Ex.no_fault) More.two_files).1 rows.
Proof.
  refine (files_table_never_fails (Ex.env_at 9 "x" Ex.no_fault) More.two_files _).
  unfold More.two_files.
  do 2 apply reachable_upload. apply reachable_empty. reflexivity.
Defined.

(** The table of two uploads, the second without a content type; and
    a record that lacks a key the page reads stops the page with a
    [KeyError]. *)
Example file_data_examples :
  match file_data (get_all_files (Ex.env_at 9 "x" Ex.no_fault) More.two_files).1 with
  | Some (Ok rows) =>
      (λ row : document, (row !! "File Name", row !! "Size", row !! "Type",
                          row !! "Uploaded")) <$> rows
  | _ => []
  end
  = [(Some (VStr "notes"), Some (VStr "2.00 KB"), Some (VStr "Unknown"),
      Some (VStr "2024-03-09 14:05:02"));
     (Some (VStr "a.txt"), Some (VStr "5 B"), Some (VStr "text/plain"),
      Some (VStr "2024-03-09 14:05:01"))] ∧
  file_row {[ "original_name" := VStr "a.txt" ]} = Some (Raise "'size_bytes'").
Proof. vm_compute. done. Qed.

(** ** Deleting a listed record *)

Lemma StronglySorted_filter {A} (R : relation A) (P : A → Prop)
    `{!∀ x, Decision (P x)} (l : list A) :
  StronglySorted R l → StronglySorted R (filter P l).
Proof.
  induction 1 as [|x l _ IH Hx]; [constructor|].
  rewrite filter_cons. destruct (decide (P x)); [|done].
  constructor; [done|].
  rewrite Forall_forall in Hx. apply Forall_forall.
  intros y Hy. apply list_elem_of_filter in Hy as [_ Hy]. by apply Hx.
Qed.

Lemma fmap_filter_elem {A B} (f : A → B) (P : A → Prop) (Q : B → Prop)
    `{!∀ x, Decision (P x)} `{!∀ y, Decision (Q y)} (l : list A) :
  (∀ x, x ∈ l → P x ↔ Q (f x)) →
  f <$> filter P l = filter Q (f <$> l).
Proof.
  induction l as [|x l IH]; intros Hiff; [done|].
  rewrite fmap_cons, !filter_cons.
  assert (f <$> filter P l = filter Q (f <$> l)) as IH'.
  { apply IH. intros y Hy. apply Hiff. by apply list_elem_of_further. }
  pose proof (Hiff x (list_elem_of_here _ _)) as Hx.
  destruct (decide (P x)), (decide (Q (f x)));
    [by rewrite fmap_cons, IH' | tauto | tauto | done].
Qed.

Lemma order_by_descending_delete_filter field (m : gmap string document) id :
  order_by_descending field (delete id m)
  = filter (λ p, p.1 ≠ id) (order_by_descending field m).
Proof.
  apply (StronglySorted_unique_strong (descending field)).
  - intros [i1 d1] [i2 d2] H1 H2 R12 R21.
    assert (entry_compare field (i1, d1) (i2, d2) = Eq) as Heq.
    { unfold descending in R12, R21.
      rewrite (entry_compare_antisym _ (i1, d1)) in R21.
      by destruct (entry_compare field (i1, d1) (i2, d2)). }
    apply entry_compare_eq in Heq as [_ Hid]. simpl in Hid. subst i2.
    apply elem_of_order_by_descending in H1 as [H1 _].
    apply list_elem_of_filter in H2 as [_ H2].
    apply elem_of_order_by_descending in H2 as [H2 _].
    apply lookup_delete_Some in H1 as [_ H1]. rewrite H1 in H2. by injection H2 as ->.
  - apply order_by_descending_sorted.
  - apply StronglySorted_filter, order_by_descending_sorted.
  - apply NoDup_Permutation.
    + rewrite order_by_descending_perm. apply NoDup_filter, NoDup_map_to_list.
    + apply NoDup_filter. rewrite order_by_descending_perm.
      apply NoDup_filter, NoDup_map_to_list.
    + intros [i d]. rewrite list_elem_of_filter, !elem_of_order_by_descending.
      rewrite lookup_delete_Some. simpl. intuition congruence.
Qed.

(** X16: the delete button passes [delete_file] the id and the storage
    path of a listed record.  When the blob is there and the store
    calls do not fail, the deletion succeeds, the blob is gone, and the
    next listing is the previous one without that record, the other
    records in the same order. *)
Theorem delete_listed_record el w d id path e e' :
  fault el QueryStream = None →
  d ∈ (get_all_files el w).1 →
  d !! "id" = Some (VStr id) → d !! "storage_path" = Some (VStr path) →
  is_Some (bucket w !! path) →
  fault e (BlobDelete path) = None → fault e (DocumentDelete id) = None →
  fault e' QueryStream = None →
  (delete_file e id path w).1 = DeleteSuccess "File deleted successfully" ∧
  bucket (delete_file e id path w).2 !! path = None ∧
  (get_all_files e' (delete_file e id path w).2).1
  = filter (λ x, x ≠ d) (get_all_files el w).1.
Proof.
  intros Hel Hin Hid Hpath [b Hb] F1 F2 He'.
  rewrite delete_file_cases. simpl. rewrite F1, Hb, F2. simpl.
  split_and!; [done | apply lookup_delete_eq |].
  rewrite get_all_files_ok in Hin by done. simpl in Hin.
  apply list_elem_of_fmap in Hin as [[id0 d0] [-> Hin]].
  unfold with_id in Hid. simpl in Hid. rewrite lookup_insert_eq in Hid.
  injection Hid as ->.
  apply elem_of_order_by_descending in Hin as [Hd0 _].
  rewrite !get_all_files_ok by done. simpl.
  rewrite order_by_descending_delete_filter.
  apply fmap_filter_elem. intros [i di] Hi. simpl.
  apply elem_of_order_by_descending in Hi as [Hdi _]. split.
  - intros Hne Heq. apply (f_equal (.!! "id")) in Heq.
    unfold with_id in Heq. simpl in Heq. rewrite !lookup_insert_eq in Heq.
    by injection Heq.
  - intros Hne ->. rewrite Hd0 in Hdi. by injection Hdi as ->.
Qed.

Lemma delete_listed_record_witness :
  (get_all_files (Ex.env_at 9 "x" Ex.no_fault)
     (delete_file (Ex.env_at 3 "y" Ex.no_fault) "p" "uploads/20240309_140501_a.txt"
        More.two_files).2).1
  = filter (λ x, x ≠ with_id ("p", upload_metadata (Ex.env_at 1 "p" Ex.no_fault) Ex.a_txt))
      (get_all_files (Ex.env_at 8 "z" Ex.no_fault) More.two_files).1.
Proof.
  refine (proj2 (proj2 (delete_listed_record (Ex.env_at 8 "z" Ex.no_fault)
                          More.two_files
                          (with_id ("p", upload_metadata (Ex.env_at 1 "p" Ex.no_fault)
                                           Ex.a_txt))
                          "p" "uploads/20240309_140501_a.txt"
                          (Ex.env_at 3 "y" Ex.no_fault) (Ex.env_at 9 "x" Ex.no_fault)
                          _ _ _ _ _ _ _ _))).
  - vm_compute. reflexivity.
  - apply (bool_decide_unpack _). vm_compute. exact I.
  - vm_compute. reflexivity.
  - vm_compute. reflexivity.
  - eexists. vm_compute. reflexivity.
  - vm_compute. reflexivity.
  - vm_compute. reflexivity.
  - vm_compute. reflexivity.
Defined.

(** ** The first failing step *)

(** X18: an upload that passes the size gate stops at the first store
    call that fails: it returns that call's message as the error, the
    calls before it were made, and none after it. *)
Theorem upload_stops_at_first_failure e f w pre c post msg :
  UploadedFile.size f ≤ MAX_FILE_SIZE_BYTES →
  upload_calls e f = pre ++ c :: post →
  (∀ c', c' ∈ pre → fault e c' = None) →
  fault e c = Some msg →
  (upload_file e f w).1 = UploadFailure msg ∧
  calls (upload_file e f w).2 = calls w ++ pre ++ [c] ∧
  collection (upload_file e f w).2 = collection w.
Proof.
  intros Hsz Hcalls Hpre Hc. unfold upload_calls in Hcalls.
  unfold_upload e f.
  destruct (Z.ltb_spec MAX_FILE_SIZE_BYTES (UploadedFile.size f)); [lia|].
  destruct pre as [|c1 pre]; simplify_eq/=.
  { by rewrite Hc. }
  rewrite (Hpre _ (list_elem_of_here _ _)). simpl.
  destruct pre as [|c2 pre]; simplify_eq/=.
  { rewrite Hc. simpl. by rewrite <-app_assoc. }
  rewrite (Hpre _ (list_elem_of_further _ _ _ (list_elem_of_here _ _))). simpl.
  destruct pre as [|c3 pre]; simplify_eq/=.
  { rewrite Hc. simpl. by rewrite <-!app_assoc. }
  rewrite (Hpre _ (list_elem_of_further _ _ _
                     (list_elem_of_further _ _ _ (list_elem_of_here _ _)))). simpl.
  destruct pre as [|c4 pre]; simplify_eq/=.
  { rewrite Hc. simpl. by rewrite <-!app_assoc. }
  by destruct pre.
Qed.

Lemma upload_stops_at_first_failure_witness :
  (upload_file (Ex.env_at 0 "doc1"
                  (Ex.fails_on (BlobMakePublic "uploads/20240309_140500_a.txt")
                     "403 forbidden"))
     Ex.a_txt Ex.empty_world).1
  = UploadFailure "403 forbidden".
Proof.
  refine (proj1 (upload_stops_at_first_failure
                   (Ex.env_at 0 "doc1"
                      (Ex.fails_on (BlobMakePublic "uploads/20240309_140500_a.txt")
                         "403 forbidden"))
                   Ex.a_txt Ex.empty_world
                   [BlobUploadFromString "uploads/20240309_140500_a.txt"]
                   (BlobMakePublic "uploads/20240309_140500_a.txt")
                   [BlobPublicUrl "uploads/20240309_140500_a.txt"; DocumentSet "doc1"]
                   "403 forbidden" _ _ _ _)).
  - vm_compute. discriminate.
  - vm_compute. reflexivity.
  - intros c' Hc'. apply list_elem_of_singleton in Hc' as ->. vm_compute. reflexivity.
  - vm_compute. reflexivity.
Defined.

(** ** The statistics after a deletion *)

(** X19: a successful deletion of a listed document takes one file and
    its size out of the statistics. *)
Theorem stats_after_delete e id path w d0 msg e1 e2 :
  (delete_file e id path w).1 = DeleteSuccess msg →
  collection w !! id = Some d0 → is_Some (d0 !! "uploaded_at") →
  fault e1 QueryStream = None → fault e2 QueryStream = None →
  Forall size_bytes_typed (get_all_files e1 w).1 →
  ∃ s1 w1 s2 w2,
    get_storage_stats e1 w = Some (s1, w1) ∧
    get_storage_stats e2 (delete_file e id path w).2 = Some (s2, w2) ∧
    total_files s2 = total_files s1 - 1 ∧
    total_size_bytes s2 = total_size_bytes s1 - size_bytes_of d0.
Proof.
  intros Hdel Hd0 Hup Hok1 Hok2 Htyped.
  assert (collection (delete_file e id path w).2 = delete id (collection w)) as Hcol.
  { revert Hdel. rewrite delete_file_cases. simpl.
    destruct (fault e (BlobDelete path)); [done|].
    destruct (bucket w !! path); [|done].
    by destruct (fault e (DocumentDelete id)). }
  assert (with_id (id, d0) :: (get_all_files e2 (delete_file e id path w).2).1
          ≡ₚ (get_all_files e1 w).1) as Hperm.
  { rewrite !get_all_files_ok by done. simpl. rewrite Hcol.
    rewrite <-(order_by_descending_delete "uploaded_at" (collection w) id d0) by done.
    done. }
  assert (Forall size_bytes_typed (get_all_files e2 (delete_file e id path w).2).1)
    as Htyped'.
  { rewrite <-Hperm in Htyped. by apply Forall_cons in Htyped as [_ ?]. }
  do 4 eexists.
  rewrite (get_storage_stats_typed e1 w Htyped).
  rewrite (get_storage_stats_typed e2 _ Htyped').
  split_and!; [done | done | ..]; simpl.
  - rewrite <-Hperm. simpl. lia.
  - rewrite <-(sum_size_bytes_perm _ _ Hperm). simpl.
    assert (size_bytes_of (with_id (id, d0)) = size_bytes_of d0) as ->; [|lia].
    unfold size_bytes_of, with_id. simpl. by rewrite lookup_insert_ne.
Qed.

Lemma stats_after_delete_witness :
  ∃ s1 w1 s2 w2,
    get_storage_stats (Ex.env_at 8 "z" Ex.no_fault) More.two_files = Some (s1, w1) ∧
    get_storage_stats (Ex.env_at 9 "x" Ex.no_fault)
      (delete_file (Ex.env_at 3 "y" Ex.no_fault) "p" "uploads/20240309_140501_a.txt"
         More.two_files).2 = Some (s2, w2) ∧
    total_files s2 = total_files s1 - 1 ∧
    total_size_bytes s2
    = total_size_bytes s1
      - size_bytes_of (upload_metadata (Ex.env_at 1 "p" Ex.no_fault) Ex.a_txt).
Proof.
  refine (stats_after_delete (Ex.env_at 3 "y" Ex.no_fault) "p"
            "uploads/20240309_140501_a.txt" More.two_files
            (upload_metadata (Ex.env_at 1 "p" Ex.no_fault) Ex.a_txt)
            "File deleted successfully"
            (Ex.env_at 8 "z" Ex.no_fault) (Ex.env_at 9 "x" Ex.no_fault) _ _ _ _ _ _).
  - vm_compute. reflexivity.
  - vm_compute. reflexivity.
  - eexists. vm_compute. reflexivity.
  - vm_compute. reflexivity.
  - vm_compute. reflexivity.
  - apply (bool_decide_unpack _). vm_compute. exact I.
Defined.

(** ** An upload, seen from the listing *)

(** X17: after a successful upload the next listing has a record with
    the returned document id and every field of the returned metadata,
    and the bucket holds, at that record's storage path, a public blob
    with the content and the type of the file. *)
Theorem uploaded_file_is_listed e f w md id w' e' :
  upload_file e f w = (UploadSuccess md id, w') →
  fault e' QueryStream = None →
  ∃ d path,
    d ∈ (get_all_files e' w').1 ∧
    d !! "id" = Some (VStr id) ∧
    (∀ k, k ≠ "id" → d !! k = md !! k) ∧
    d !! "storage_path" = Some (VStr path) ∧
    bucket w' !! path
    = Some {| data := UploadedFile.getvalue f;
              content_type := UploadedFile.type f; public := true |}.
Proof.
  intros Hup Hok. apply upload_file_success_inv in Hup as (_ & _ & -> & -> & ->).
  exists (with_id (auto_id e, upload_metadata e f)), (storage_path e f).
  split_and!.
  - apply elem_of_get_all_files; [done | apply lookup_insert_eq | by eexists].
  - apply lookup_insert_eq.
  - intros k Hk. unfold with_id. simpl. by rewrite lookup_insert_ne.
  - done.
  - apply lookup_insert_eq.
Qed.

Lemma uploaded_file_is_listed_witness :
  ∃ d path,
    d ∈ (get_all_files (Ex.env_at 1 "x" Ex.no_fault)
           (uploaded_world (Ex.env_at 0 "doc1" Ex.no_fault) Ex.a_txt
              Ex.empty_world)).1 ∧
    d !! "id" = Some (VStr "doc1") ∧
    (∀ k, k ≠ "id" →
       d !! k = upload_metadata (Ex.env_at 0 "doc1" Ex.no_fault) Ex.a_txt !! k) ∧
    d !! "storage_path" = Some (VStr path) ∧
    bucket (uploaded_world (Ex.env_at 0 "doc1" Ex.no_fault) Ex.a_txt Ex.empty_world)
    !! path
    = Some {| data := UploadedFile.getvalue Ex.a_txt;
              content_type := UploadedFile.type Ex.a_txt; public := true |}.
Proof.
  refine (uploaded_file_is_listed (Ex.env_at 0 "doc1" Ex.no_fault) Ex.a_txt
            Ex.empty_world _ _ _ (Ex.env_at 1 "x" Ex.no_fault) _ _).
  - vm_compute. reflexivity.
  - vm_compute. reflexivity.
Defined.
